(** * Candidate-Pool-Management: the multi-metric similarity engine

    A shallow embedding of [src/src/similarity_engine] (orchestrator, cache,
    skills / language / education / semantic metrics) and of the metrics of
    [src/src/backend/similarity_engine] (experience, seniority,
    certification) that the orchestrator loads.

    - Python values read from the database rows are the dynamic type
      [pyval]; a [dict] is an association list with string keys.
    - Python floats are modelled by exact rationals [Q].
    - Exceptions are the [result] type; code that mutates the shared
      [JobContext] or the engine runs in the state/exception monad [SE]
      (state changes made before an exception survive it, as in Python).
    - [difflib.SequenceMatcher(None, a, b).ratio()] is implemented as in
      CPython (with its autojunk heuristic and without a junk predicate).
    - The embedding model is an external collaborator: the class
      [EmbeddingModel]. *)

From Stdlib Require Import ZArith QArith Qround String Ascii List Lia Lqa Sorted Permutation.
From stdpp Require Import base gmap.

Open Scope Z_scope.
Set Warnings "-register-all".

(* ------------------------------------------------------------------ *)
(** ** Python values, exceptions and the state/exception monad *)

Inductive pyval : Type :=
| PNone
| PBool (b : bool)
| PInt (z : Z)
| PStr (s : string)
| PList (xs : list pyval)
| PDict (kvs : list (string * pyval)).

Definition pydict := list (string * pyval).

Inductive exc : Type :=
| TypeError | AttributeError | KeyError | ValueError | ZeroDivisionError
| ProviderError.

Inductive result (A : Type) : Type :=
| Ok (a : A)
| Raise (e : exc).
Arguments Ok {A} a.
Arguments Raise {A} e.

Global Instance result_ret : MRet result := fun A a => Ok a.
Global Instance result_bind : MBind result := fun A B f m =>
  match m with Ok a => f a | Raise e => Raise e end.

(** [try: body except Exception: return fallback] *)
Definition try_except {A} (m : result A) (fallback : A) : A :=
  match m with Ok a => a | Raise _ => fallback end.

(** State threaded through the code, surviving exceptions. *)
Definition SE (S A : Type) : Type := S -> result A * S.

Definition se_ret {S A} (a : A) : SE S A := fun s => (Ok a, s).
Definition se_bind {S A B} (m : SE S A) (f : A -> SE S B) : SE S B :=
  fun s => match m s with
           | (Ok a, s') => f a s'
           | (Raise e, s') => (Raise e, s')
           end.
Definition se_lift {S A} (r : result A) : SE S A := fun s => (r, s).
Definition se_get {S} : SE S S := fun s => (Ok s, s).
Definition se_put {S} (s : S) : SE S unit := fun _ => (Ok tt, s).
(** [try: ... except Exception: return fallback], keeping the state. *)
Definition se_try {S A} (m : SE S A) (fallback : A) : SE S A :=
  fun s => match m s with
           | (Ok a, s') => (Ok a, s')
           | (Raise _, s') => (Ok fallback, s')
           end.

Declare Scope se_scope.
Notation "x <-- m ;; k" := (se_bind m (fun x => k))
  (at level 100, m at next level, right associativity) : se_scope.
Notation "m ;;; k" := (se_bind m (fun _ => k))
  (at level 100, right associativity) : se_scope.

(* ------------------------------------------------------------------ *)
(** ** Python built-ins on [pyval] *)

Definition truthy (v : pyval) : bool :=
  match v with
  | PNone => false
  | PBool b => b
  | PInt z => negb (Z.eqb z 0)
  | PStr s => negb (String.eqb s "")
  | PList xs => negb (Nat.eqb (List.length xs) 0)
  | PDict kvs => negb (Nat.eqb (List.length kvs) 0)
  end.

(** [a or b] *)
Definition py_or (a b : pyval) : pyval := if truthy a then a else b.

Fixpoint dict_lookup (d : pydict) (k : string) : option pyval :=
  match d with
  | [] => None
  | (k', v) :: d' => if String.eqb k k' then Some v else dict_lookup d' k
  end.

(** [d.get(k, default)] *)
Definition dget (d : pydict) (k : string) (default : pyval) : pyval :=
  match dict_lookup d k with Some v => v | None => default end.

(** [k in d] *)
Definition dhas (d : pydict) (k : string) : bool :=
  match dict_lookup d k with Some _ => true | None => false end.

Definition chars (s : string) : list pyval :=
  List.map (fun c => PStr (String c EmptyString)) (list_ascii_of_string s).

(** [iter(v)]: lists give their items, strings their characters, dicts
    their keys; anything else raises [TypeError]. *)
Definition py_iter (v : pyval) : result (list pyval) :=
  match v with
  | PList xs => Ok xs
  | PStr s => Ok (chars s)
  | PDict kvs => Ok (List.map (fun kv => PStr (fst kv)) kvs)
  | _ => Raise TypeError
  end.

(** [len(v)] *)
Definition py_len (v : pyval) : result nat :=
  match v with
  | PList xs => Ok (List.length xs)
  | PStr s => Ok (String.length s)
  | PDict kvs => Ok (List.length kvs)
  | _ => Raise TypeError
  end.

Definition ascii_lower (c : ascii) : ascii :=
  let n := nat_of_ascii c in
  if (65 <=? n)%nat && (n <=? 90)%nat then ascii_of_nat (n + 32) else c.

Fixpoint str_lower (s : string) : string :=
  match s with
  | EmptyString => EmptyString
  | String c s' => String (ascii_lower c) (str_lower s')
  end.

(** [str.isspace] on one character (ASCII part of Python's table). *)
Definition is_space (c : ascii) : bool :=
  let n := nat_of_ascii c in
  ((9 <=? n)%nat && (n <=? 13)%nat) || ((28 <=? n)%nat && (n <=? 32)%nat).

Fixpoint lstrip (s : string) : string :=
  match s with
  | String c s' => if is_space c then lstrip s' else s
  | EmptyString => EmptyString
  end.

Definition str_rev (s : string) : string :=
  string_of_list_ascii (List.rev (list_ascii_of_string s)).

(** [s.strip()] *)
Definition str_strip (s : string) : string := str_rev (lstrip (str_rev (lstrip s))).

(** [v.lower()]: only strings have the method. *)
Definition py_lower (v : pyval) : result string :=
  match v with PStr s => Ok (str_lower s) | _ => Raise AttributeError end.

(** [sep.join(xs)]: every item must be a string. *)
Fixpoint join_strs (sep : string) (xs : list pyval) : result string :=
  match xs with
  | [] => Ok ""%string
  | [PStr s] => Ok s
  | PStr s :: xs' => r ← join_strs sep xs'; Ok (s ++ sep ++ r)%string
  | _ :: _ => Raise TypeError
  end.

(** Operand of an arithmetic comparison ([bool] is a subclass of [int]). *)
Definition py_num (v : pyval) : result Z :=
  match v with
  | PInt z => Ok z
  | PBool b => Ok (if b then 1 else 0)
  | _ => Raise TypeError
  end.

Fixpoint list_forall_str (xs : list pyval) : option (list string) :=
  match xs with
  | [] => Some []
  | PStr s :: xs' => option_map (cons s) (list_forall_str xs')
  | _ :: _ => None
  end.

(** [set(xs)] for strings, as a duplicate-free list. *)
Definition py_set (xs : list string) : list string := List.nodup string_dec xs.

Definition Qlt_bool (a b : Q) : bool := negb (Qle_bool b a).
Definition Qmax (a b : Q) : Q := if Qle_bool b a then a else b.
Definition Qmin (a b : Q) : Q := if Qle_bool a b then a else b.

(* ------------------------------------------------------------------ *)
(** ** [difflib.SequenceMatcher(None, a, b).ratio()] *)

Module Difflib.

Definition ch (s : list ascii) (i : nat) : ascii := nth i s "000"%char.

(** [__chain_b]: with [n >= 200] an element occurring more than
    [n // 100 + 1] times is "popular" and dropped from [b2j]. *)
Definition popular (b : list ascii) (c : ascii) : bool :=
  let n := List.length b in
  (200 <=? n)%nat && (n / 100 + 1 <? count_occ ascii_dec b c)%nat.

(** [b2j.get(c, nothing)]: the ascending positions of [c] in [b]. *)
Definition b2j (b : list ascii) (c : ascii) : list nat :=
  if popular b c then []
  else List.filter (fun j => if ascii_dec (ch b j) c then true else false)
         (List.seq 0 (List.length b)).

Fixpoint assoc_get (m : list (nat * nat)) (j : nat) : nat :=
  match m with
  | [] => 0%nat
  | (j', k) :: m' => if Nat.eqb j j' then k else assoc_get m' j
  end.

(** [(besti, bestj, bestsize)] *)
Definition block := (nat * nat * nat)%type.

(** The inner loop [for j in b2j.get(a[i], nothing): ...] of
    [find_longest_match]. *)
Fixpoint scan_row (i blo bhi : nat) (j2len : list (nat * nat)) (js : list nat)
    (newj2len : list (nat * nat)) (best : block) : list (nat * nat) * block :=
  match js with
  | [] => (newj2len, best)
  | j :: js' =>
      if (j <? blo)%nat then scan_row i blo bhi j2len js' newj2len best
      else if (bhi <=? j)%nat then (newj2len, best)
      else
        let k := (match j with O => O | S jm => assoc_get j2len jm end + 1)%nat in
        let '(bi, bj, bs) := best in
        let best' := if (bs <? k)%nat then ((i + 1 - k)%nat, (j + 1 - k)%nat, k) else best in
        scan_row i blo bhi j2len js' ((j, k) :: newj2len) best'
  end.

(** The outer loop [for i in range(alo, ahi)]. *)
Fixpoint scan_rows (a b : list ascii) (blo bhi : nat) (is_ : list nat)
    (j2len : list (nat * nat)) (best : block) : block :=
  match is_ with
  | [] => best
  | i :: is' =>
      let '(newj2len, best') := scan_row i blo bhi j2len (b2j b (ch a i)) [] best in
      scan_rows a b blo bhi is' newj2len best'
  end.

(** [while besti > alo and bestj > blo and not isbjunk(b[bestj-1]) and
          a[besti-1] == b[bestj-1]: ...] (no junk: [isbjunk] is false). *)
Fixpoint extend_back (a b : list ascii) (alo blo : nat) (fuel : nat) (x : block) : block :=
  match fuel with
  | O => x
  | S fuel' =>
      let '(bi, bj, bs) := x in
      if (alo <? bi)%nat && (blo <? bj)%nat
         && (if ascii_dec (ch a (bi - 1)) (ch b (bj - 1)) then true else false)
      then extend_back a b alo blo fuel' ((bi - 1)%nat, (bj - 1)%nat, S bs)
      else x
  end.

(** [while besti+bestsize < ahi and bestj+bestsize < bhi and ...
          a[besti+bestsize] == b[bestj+bestsize]: bestsize += 1] *)
Fixpoint extend_fwd (a b : list ascii) (ahi bhi : nat) (fuel : nat) (x : block) : block :=
  match fuel with
  | O => x
  | S fuel' =>
      let '(bi, bj, bs) := x in
      if (bi + bs <? ahi)%nat && (bj + bs <? bhi)%nat
         && (if ascii_dec (ch a (bi + bs)) (ch b (bj + bs)) then true else false)
      then extend_fwd a b ahi bhi fuel' (bi, bj, S bs)
      else x
  end.

Definition find_longest_match (a b : list ascii) (alo ahi blo bhi : nat) : block :=
  let best := scan_rows a b blo bhi (List.seq alo (ahi - alo)) [] (alo, blo, O) in
  let best := extend_back a b alo blo (List.length a) best in
  extend_fwd a b ahi bhi (List.length a) best.

(** Sum of the sizes of [get_matching_blocks()]: the queue of ranges is
    processed recursively; the order does not change the sum. The fuel
    [len(a) + 1] suffices: each recursive range is strictly shorter in [a]. *)
Fixpoint matches (a b : list ascii) (fuel : nat) (alo ahi blo bhi : nat) : nat :=
  match fuel with
  | O => O
  | S fuel' =>
      let '(i, j, k) := find_longest_match a b alo ahi blo bhi in
      if Nat.eqb k 0 then O
      else (k
            + (if (alo <? i)%nat && (blo <? j)%nat
               then matches a b fuel' alo i blo j else O)
            + (if (i + k <? ahi)%nat && (j + k <? bhi)%nat
               then matches a b fuel' (i + k) ahi (j + k) bhi else O))%nat
  end.

(** [_calculate_ratio(matches, len(a) + len(b))] *)
Definition ratio (sa sb : string) : Q :=
  let a := list_ascii_of_string sa in
  let b := list_ascii_of_string sb in
  let la := List.length a in
  let lb := List.length b in
  let m := matches a b (S la) 0 la 0 lb in
  if Nat.eqb (la + lb) 0 then 1%Q
  else (inject_Z (Z.of_nat (2 * m)) / inject_Z (Z.of_nat (la + lb)))%Q.

End Difflib.

(* ------------------------------------------------------------------ *)
(** ** The embedding model and the in-memory vector store *)

(** The embedding collaborator used by [InMemoryVectorStore]. *)
Class EmbeddingModel := {
  (** embedding one document inside [add_texts]; may fail (network) *)
  embed_document : string -> result unit;
  (** [similarity_search_with_score(query, k=1)] over the documents of a
      store: the score of the best document, [None] for an empty store *)
  search_top1 : list string -> pyval -> result (option Q)
}.

(** A vector store is the list of the documents it holds. *)
Definition vstore := list string.

Fixpoint mapM_res {A B} (f : A -> result B) (xs : list A) : result (list B) :=
  match xs with
  | [] => Ok []
  | x :: xs' => y ← f x; ys ← mapM_res f xs'; Ok (y :: ys)
  end.

(** [store.add_texts(texts)]: all texts are embedded before any is added. *)
Definition add_texts `{EmbeddingModel} (vs : vstore) (texts : list string) : result vstore :=
  _ ← mapM_res embed_document texts; Ok (vs ++ texts).

(* ------------------------------------------------------------------ *)
(** ** [JobContext] (data_models.py) and its builder *)

Record JobContext := mkJobContext {
  job_id : Z;
  job_data : pydict;
  required_skills : list string;
  job_responsibilities_text : string;
  education_requirements : list string;
  (** the dicts [{"language": ..., "required_level": ...}] *)
  required_languages : list (string * string);
  required_certifications : list string;
  min_years_experience : Z;
  max_years_experience : option Z;
  seniority_level : string;
  job_summary : string;
  vector_store : option vstore
}.

Definition set_vector_store (c : JobContext) (v : option vstore) : JobContext :=
  mkJobContext c.(job_id) c.(job_data) c.(required_skills)
    c.(job_responsibilities_text) c.(education_requirements)
    c.(required_languages) c.(required_certifications)
    c.(min_years_experience) c.(max_years_experience) c.(seniority_level)
    c.(job_summary) v.

Fixpoint fold_res {A B} (f : B -> A -> result B) (xs : list A) (acc : B) : result B :=
  match xs with
  | [] => Ok acc
  | x :: xs' => acc' ← f acc x; fold_res f xs' acc'
  end.

(** [[s for s in xs if s and isinstance(s, str)]] *)
Definition nonempty_strs (xs : list pyval) : list string :=
  List.flat_map (fun v => match v with
                          | PStr s => if String.eqb s "" then [] else [s]
                          | _ => []
                          end) xs.

(** One [skill_category] of [extract_job_required_skills]. *)
Definition job_skill_item (acc : list pyval) (sc : pyval) : result (list pyval) :=
  match sc with
  | PDict d =>
      if dhas d "requirements" then ext ← py_iter (dget d "requirements" PNone); Ok (acc ++ ext)
      else if dhas d "skills" then ext ← py_iter (dget d "skills" PNone); Ok (acc ++ ext)
      else if dhas d "name" then Ok (acc ++ [dget d "name" PNone])
      else Ok acc
  | PStr s => Ok (acc ++ [PStr s])
  | _ => Ok acc
  end.

(** [job.get(field, []) or []] *)
Definition get_list (d : pydict) (field : string) : pyval :=
  py_or (dget d field (PList [])) (PList []).

Definition extract_job_required_skills (job : pydict) : result (list string) :=
  skills ← fold_res (fun acc field =>
              items ← py_iter (get_list job field);
              fold_res job_skill_item items acc)
            ["required_skills"; "skills"; "technical_skills"; "core_skills"]%string [];
  Ok (nonempty_strs skills).

Definition extract_job_responsibilities_and_description (job : pydict) : result string :=
  let jd := dget job "job_description" (PStr "") in
  let parts := if truthy jd then [jd] else [] in
  let js := dget job "job_summary" (PStr "") in
  let parts := if truthy js then parts ++ [js] else parts in
  let resp := dget job "responsibilities" (PList []) in
  parts ← (if truthy resp then ext ← py_iter resp; Ok (parts ++ ext) else Ok parts);
  s ← join_strs " " parts;
  Ok (str_strip s).

(** [job.get("education_requirements", []) or []]; the result is later
    validated by pydantic as [List[str]]. *)
Definition extract_job_education_requirements (job : pydict) : pyval :=
  get_list job "education_requirements".

(** One [lang] of [extract_job_required_languages]. *)
Definition job_language_item (acc : list (string * string)) (lang : pyval)
    : result (list (string * string)) :=
  match lang with
  | PDict d =>
      name ← py_lower (dget d "language" (PStr ""));
      l1 ← py_lower (dget d "level" (PStr ""));
      lvl ← (if String.eqb l1 "" then py_lower (dget d "proficiency" (PStr "")) else Ok l1);
      if String.eqb name "" then Ok acc
      else Ok (acc ++ [(name, if String.eqb lvl "" then "basic"%string else lvl)])
  | PStr s => Ok (acc ++ [(str_lower s, "basic"%string)])
  | _ => Ok acc
  end.

Definition extract_job_required_languages (job : pydict) : result (list (string * string)) :=
  fold_res (fun acc field =>
              items ← py_iter (get_list job field);
              fold_res job_language_item items acc)
    ["required_languages"; "languages"; "language_requirements"]%string [].

(** One [cert] of the certification extractors (job side and candidate
    side have the same loop body). *)
Definition cert_item (acc : list string) (cert : pyval) : result (list string) :=
  match cert with
  | PDict d =>
      let cert_name := py_or (dget d "name" (PStr "")) (dget d "certification" (PStr "")) in
      if truthy cert_name then n ← py_lower cert_name; Ok (acc ++ [str_strip n])
      else Ok acc
  | PStr s => Ok (acc ++ [str_strip (str_lower s)])
  | _ => Ok acc
  end.

Definition drop_empty (xs : list string) : list string :=
  List.filter (fun s => negb (String.eqb s "")) xs.

Definition extract_job_required_certifications (job : pydict) : result (list string) :=
  certs ← fold_res (fun acc field =>
             items ← py_iter (get_list job field);
             fold_res cert_item items acc)
           ["required_certifications"; "certifications";
            "certification_requirements"; "preferred_certifications"]%string [];
  Ok (drop_empty certs).

(** pydantic validation of the [JobContext] fields (exact types; a value
    of another type is reported as a [ValidationError], a [ValueError]). *)
Definition validate_str_list (v : pyval) : result (list string) :=
  match v with
  | PList xs => match list_forall_str xs with Some ss => Ok ss | None => Raise ValueError end
  | _ => Raise ValueError
  end.
Definition validate_int (v : pyval) : result Z :=
  match v with PInt z => Ok z | _ => Raise ValueError end.
Definition validate_opt_int (v : pyval) : result (option Z) :=
  match v with PNone => Ok None | PInt z => Ok (Some z) | _ => Raise ValueError end.
Definition validate_str (v : pyval) : result string :=
  match v with PStr s => Ok s | _ => Raise ValueError end.

(** The [JobContext(...)] construction of [preprocess_job], lines 46-62. *)
Definition build_job_context (jid : Z) (job : pydict) : result JobContext :=
  rs ← extract_job_required_skills job;
  rt ← extract_job_responsibilities_and_description job;
  let er := extract_job_education_requirements job in
  rl ← extract_job_required_languages job;
  rc ← extract_job_required_certifications job;
  let mn := py_or (dget job "min_years_experience" (PInt 0)) (PInt 0) in
  let mx := dget job "max_years_experience" PNone in
  let sl := py_or (dget job "seniority_level" (PStr "")) (PStr "") in
  let su := py_or (dget job "job_summary" (PStr "")) (PStr "") in
  er' ← validate_str_list er;
  mn' ← validate_int mn;
  mx' ← validate_opt_int mx;
  sl' ← validate_str sl;
  su' ← validate_str su;
  Ok (mkJobContext jid job rs rt er' rl rc mn' mx' sl' su' None).

(* ------------------------------------------------------------------ *)
(** ** The metrics *)

Open Scope Q_scope.

Definition Q_of_Z (z : Z) : Q := inject_Z z.
Definition Q_of_nat (n : nat) : Q := inject_Z (Z.of_nat n).

(** [candidate.get("years_of_experience", 0) or 0] *)
Definition years_of_experience (candidate : pydict) : pyval :=
  py_or (dget candidate "years_of_experience" (PInt 0)) (PInt 0).

(** *** Skills (similarity_engine/skills_similarity.py) *)
Module Skills.

Definition threshold : Q := 0.6.

(** One [skill_category] of [_extract_candidate_skills]. *)
Definition skill_item (acc : list pyval) (sc : pyval) : result (list pyval) :=
  match sc with
  | PDict d =>
      if dhas d "skills" then ext ← py_iter (dget d "skills" PNone); Ok (acc ++ ext)
      else if dhas d "name" then Ok (acc ++ [dget d "name" PNone])
      else Ok acc
  | PStr s => Ok (acc ++ [PStr s])
  | _ => Ok acc
  end.

(** [_extract_candidate_skills] *)
Definition extract_candidate_skills (candidate : pydict) : result (list string) :=
  items ← py_iter (get_list candidate "skills");
  skills ← fold_res skill_item items [];
  Ok (nonempty_strs skills).

Definition set_add (x : string) (s : list string) : list string :=
  if in_dec string_dec x s then s else s ++ [x].

(** [_fuzzy_match_skills]: the set of matched required skills. *)
Definition fuzzy_match_skills (thr : Q) (candidate_skills required : list string)
    : list string :=
  List.fold_left (fun matched r =>
      if in_dec string_dec r candidate_skills then set_add r matched
      else if existsb (fun c => Qle_bool thr (Difflib.ratio r c)) candidate_skills
      then set_add r matched
      else matched) required [].

(** [SkillsSimilarityMetric.calculate] (default threshold 0.6) *)
Definition calculate (candidate : pydict) (ctx : JobContext) : Q :=
  try_except
    (candidate_skills ← extract_candidate_skills candidate;
     let required := ctx.(required_skills) in
     match required with
     | [] => Ok 0.8
     | _ =>
       match candidate_skills with
       | [] => Ok 0
       | _ =>
         let matched := fuzzy_match_skills threshold candidate_skills required in
         let intersection_size := List.length matched in
         let union_size := List.length (py_set (candidate_skills ++ required)) in
         if Nat.eqb union_size 0 then Ok 0
         else Ok (Qmin (Q_of_nat intersection_size / Q_of_nat union_size) 1)
       end
     end)
    0.

End Skills.

(** *** Certification (backend/similarity_engine/certification_similarity.py) *)
Module Certification.

Definition threshold : Q := 0.8.

(** [_extract_candidate_certifications] *)
Definition extract_candidate_certifications (candidate : pydict) : result (list string) :=
  items ← py_iter (get_list candidate "certifications");
  certs ← fold_res cert_item items [];
  Ok (drop_empty certs).

(** [_find_matching_certification] *)
Definition find_matching_certification (thr : Q) (required_cert : string)
    (candidate_certifications : list string) : bool :=
  if in_dec string_dec required_cert candidate_certifications then true
  else existsb (fun c => Qle_bool thr (Difflib.ratio required_cert c))
         candidate_certifications.

Definition calculate (candidate : pydict) (ctx : JobContext) : Q :=
  try_except
    (cands ← extract_candidate_certifications candidate;
     let required := ctx.(required_certifications) in
     match required with
     | [] => Ok 0.9
     | _ =>
       match cands with
       | [] => Ok 0
       | _ =>
         let matched := List.length
           (List.filter (fun r => find_matching_certification threshold r cands) required) in
         let total := List.length required in
         Ok (Qmin (Q_of_nat matched / Q_of_nat (Nat.max total 1)) 1)
       end
     end)
    0.5.

End Certification.

(** *** Education (similarity_engine/education_similarity.py) *)
Module Education.

(** One [edu] entry: the lower-cased degree and field, when present. *)
Definition edu_item (acc : list string * list string) (edu : pyval)
    : result (list string * list string) :=
  let '(degrees, fields) := acc in
  match edu with
  | PDict d =>
      let degree := dget d "degree" (PStr "") in
      let field := dget d "field_of_study" (PStr "") in
      degrees ← (if truthy degree then dl ← py_lower degree; Ok (degrees ++ [dl]) else Ok degrees);
      fields ← (if truthy field then fl ← py_lower field; Ok (fields ++ [fl]) else Ok fields);
      Ok (degrees, fields)
  | _ => Ok acc
  end.

Definition requirement_met (degrees fields : list string) (requirement : string) : bool :=
  let req_lower := str_lower requirement in
  existsb (fun deg => Qlt_bool 0.7 (Difflib.ratio req_lower deg)) degrees
  || existsb (fun f => Qlt_bool 0.7 (Difflib.ratio req_lower f)) fields.

Definition calculate (candidate : pydict) (ctx : JobContext) : Q :=
  try_except
    (let candidate_education := get_list candidate "education" in
     let reqs := ctx.(education_requirements) in
     match reqs with
     | [] => Ok 0.8
     | _ =>
       if negb (truthy candidate_education) then Ok 0
       else
         items ← py_iter candidate_education;
         df ← fold_res edu_item items ([], []);
         let education_score := List.length (List.filter (requirement_met df.1 df.2) reqs) in
         Ok (Q_of_nat education_score / Q_of_nat (Nat.max (List.length reqs) 1))
     end)
    0.

End Education.

(** *** Language (similarity_engine/language_similarity.py) *)
Module Language.

(** One [lang] of [_extract_candidate_languages]. *)
Definition lang_item (acc : list (string * string)) (lang : pyval)
    : result (list (string * string)) :=
  match lang with
  | PDict d =>
      name ← py_lower (dget d "language" (PStr ""));
      prof ← py_lower (dget d "proficiency" (PStr ""));
      if String.eqb name "" then Ok acc else Ok (acc ++ [(name, prof)])
  | PStr s => Ok (acc ++ [(str_lower s, "fluent"%string)])
  | _ => Ok acc
  end.

Definition extract_candidate_languages (candidate : pydict) : result (list (string * string)) :=
  items ← py_iter (get_list candidate "languages");
  fold_res lang_item items [].

(** [proficiency_levels.get(level, 1)] *)
Definition proficiency_level (level : string) : Z :=
  if String.eqb level "basic" then 1
  else if String.eqb level "elementary" then 1
  else if String.eqb level "beginner" then 1
  else if String.eqb level "intermediate" then 2
  else if String.eqb level "conversational" then 2
  else if String.eqb level "advanced" then 3
  else if String.eqb level "fluent" then 4
  else if String.eqb level "native" then 5
  else if String.eqb level "bilingual" then 5
  else 1.

(** [_calculate_single_language_match] *)
Definition single_language_match (required_lang : string * string)
    (candidate_languages : list (string * string)) : Q :=
  let '(required_name, required_level) := required_lang in
  let required_level_score := proficiency_level required_level in
  List.fold_left (fun best cl =>
      let '(candidate_name, candidate_proficiency) := cl in
      let name_similarity := Difflib.ratio required_name candidate_name in
      if Qle_bool 0.8 name_similarity then
        let candidate_level_score := proficiency_level candidate_proficiency in
        let proficiency_match :=
          if (required_level_score <=? candidate_level_score)%Z then 1
          else Q_of_Z candidate_level_score / Q_of_Z required_level_score in
        Qmax best (name_similarity * proficiency_match)
      else best) candidate_languages 0.

Definition calculate (candidate : pydict) (ctx : JobContext) : Q :=
  try_except
    (cands ← extract_candidate_languages candidate;
     let required := ctx.(required_languages) in
     match required with
     | [] => Ok 0.9
     | _ =>
       match cands with
       | [] => Ok 0
       | _ =>
         let total_score :=
           List.fold_left (fun acc r => acc + single_language_match r cands) required 0 in
         Ok (Qmin (total_score / Q_of_nat (Nat.max (List.length required) 1)) 1)
       end
     end)
    0.5.

End Language.

(** Similarity derived from a vector-store score:
    [min(max(0.0, 1.0 - (distance_score / 2.0)), 1.0)]. *)
Definition score_of_distance (d : Q) : Q := Qmin (Qmax 0 (1 - d / 2)) 1.

(** *** Semantic (similarity_engine/semantic_similarity.py) *)
Module Semantic.
Section WithModel.
Context `{EmbeddingModel}.

Definition calculate (candidate : pydict) (ctx : JobContext) : Q :=
  try_except
    (let candidate_summary := dget candidate "summary" PNone in
     let job_summary := ctx.(job_summary) in
     if negb (truthy candidate_summary) || String.eqb job_summary "" then Ok 0.5
     else
       vs ← add_texts [] [job_summary];
       res ← search_top1 vs candidate_summary;
       match res with
       | Some d => Ok (score_of_distance d)
       | None => Ok 0.5
       end)
    0.5.

End WithModel.
End Semantic.

(** *** Seniority (backend/similarity_engine/seniority_similarity.py) *)
Module Seniority.

(** [seniority_ranges] *)
Definition seniority_ranges (label : string) : option (Z * Z) :=
  if String.eqb label "entry-level" then Some (0, 2)%Z
  else if String.eqb label "junior" then Some (0, 3)%Z
  else if String.eqb label "mid-level" then Some (3, 7)%Z
  else if String.eqb label "senior" then Some (7, 15)%Z
  else if String.eqb label "executive" then Some (15, 100)%Z
  else if String.eqb label "lead" then Some (5, 100)%Z
  else if String.eqb label "principal" then Some (10, 100)%Z
  else None.

(** Lines 22-27: the score inside a recognised band. *)
Definition band_score (min_years max_years candidate_years : Z) : Q :=
  if (min_years <=? candidate_years)%Z && (candidate_years <=? max_years)%Z then 1
  else if (candidate_years <? min_years)%Z then
    Qmax 0.3 (Q_of_Z candidate_years / Q_of_Z (Z.max min_years 1))
  else Qmax 0.7 (1 - Q_of_Z (candidate_years - max_years) * 0.05).

Definition calculate (candidate : pydict) (ctx : JobContext) : Q :=
  try_except
    (let candidate_years := years_of_experience candidate in
     let job_seniority := str_lower ctx.(seniority_level) in
     let job_min_years := ctx.(min_years_experience) in
     match seniority_ranges job_seniority with
     | Some (mn, mx) => y ← py_num candidate_years; Ok (band_score mn mx y)
     | None =>
       if (0 <? job_min_years)%Z then
         y ← py_num candidate_years;
         if (job_min_years <=? y)%Z then Ok 1
         else Ok (Qmax 0.3 (Q_of_Z y / Q_of_Z job_min_years))
       else Ok 0.8
     end)
    0.8.

End Seniority.

(** *** Experience (backend/similarity_engine/experience_similarity.py)

    The only metric that writes to the shared [JobContext] (its lazy
    [vector_store]); it runs in [SE JobContext]. Only
    [_calculate_responsibility_similarity] has a [try]. *)
Module Experience.
Section WithModel.
Context `{EmbeddingModel}.
Local Open Scope se_scope.

(** Lines 20-33: the years component. *)
Definition years_score (candidate_years min_required : Z) (max_preferred : option Z) : Q :=
  if (min_required <=? candidate_years)%Z then
    match max_preferred with
    | Some m =>
        if negb (Z.eqb m 0) then
          (if (candidate_years <=? m)%Z then 1
           else Qmax 0.8 (1 - Q_of_Z (candidate_years - m) * 0.05))
        else 1
    | None => 1
    end
  else Qmax 0 (Q_of_Z candidate_years / Q_of_Z (Z.max min_required 1)).

(** [_calculate_responsibility_similarity] *)
Definition responsibility_similarity (experience : pydict) : SE JobContext Q :=
  se_try
    (let candidate_responsibilities := dget experience "responsibilities" (PList []) in
     if negb (truthy candidate_responsibilities) then se_ret 0
     else
       items <-- se_lift (py_iter candidate_responsibilities) ;;
       candidate_resp_text <-- se_lift (join_strs " " items) ;;
       ctx <-- se_get ;;
       if String.eqb ctx.(job_responsibilities_text) "" then se_ret 0
       else
         (match ctx.(vector_store) with
          | None =>
              let documents := [("Job requirements: " ++ ctx.(job_responsibilities_text))%string] in
              (* [job_context.vector_store = InMemoryVectorStore(...)] *)
              se_put (set_vector_store ctx (Some [])) ;;;
              (* [job_context.vector_store.add_texts(...)], in place *)
              vs <-- se_lift (add_texts [] documents) ;;
              ctx1 <-- se_get ;;
              se_put (set_vector_store ctx1 (Some vs))
          | Some _ => se_ret tt
          end) ;;;
         ctx2 <-- se_get ;;
         res <-- se_lift (match ctx2.(vector_store) with
                          | Some vs => search_top1 vs (PStr candidate_resp_text)
                          | None => Raise AttributeError
                          end) ;;
         match res with
         | Some d => se_ret (score_of_distance d)
         | None => se_ret 0
         end)
    0.

(** [_calculate_position_relevance] *)
Definition position_relevance (experience : pydict) : SE JobContext Q :=
  exp_title <-- se_lift (py_lower (dget experience "job_title" (PStr ""))) ;;
  ctx <-- se_get ;;
  job_title <-- se_lift (py_lower (dget ctx.(job_data) "job_title" (PStr ""))) ;;
  let title_score :=
    if negb (String.eqb exp_title "") && negb (String.eqb job_title "")
    then Difflib.ratio exp_title job_title else 0 in
  resp_score <-- responsibility_similarity experience ;;
  se_ret (Qmin (title_score * 0.6 + resp_score * 0.4) 1).

Fixpoint sum_positions (items : list pyval) (acc : Q) : SE JobContext Q :=
  match items with
  | [] => se_ret acc
  | PDict d :: items' =>
      r <-- position_relevance d ;; sum_positions items' (acc + r)
  | _ :: items' => sum_positions items' acc
  end.

(** [_calculate_experience_relevance] *)
Definition experience_relevance (candidate : pydict) : SE JobContext Q :=
  let candidate_exp := get_list candidate "experience" in
  if negb (truthy candidate_exp) then se_ret 0.3
  else
    total_positions <-- se_lift (py_len candidate_exp) ;;
    items <-- se_lift (py_iter candidate_exp) ;;
    relevance_score <-- sum_positions items 0 ;;
    se_ret (relevance_score / Q_of_nat (Nat.max total_positions 1)).

(** [ExperienceSimilarityMetric.calculate] *)
Definition calculate (candidate : pydict) : SE JobContext Q :=
  let candidate_years := years_of_experience candidate in
  ctx <-- se_get ;;
  y <-- se_lift (py_num candidate_years) ;;
  let ys := years_score y ctx.(min_years_experience) ctx.(max_years_experience) in
  relevance_score <-- experience_relevance candidate ;;
  se_ret (ys * 0.6 + relevance_score * 0.4).

End WithModel.
End Experience.

(* ------------------------------------------------------------------ *)
(** ** The orchestrator (similarity_engine/similarity_engine.py) *)

Inductive breakdown : Type :=
| BEmpty
| BDetail (certification_score : Q) (weights_used : list (string * Q))
          (bd_job_id : Z) (cached : bool).

Record SimilarityScore := mkScore {
  overall_score : Q;
  skills_score : Q;
  experience_score : Q;
  education_score : Q;
  semantic_similarity : Q;
  seniority_match : Q;
  detailed_breakdown : breakdown
}.

(** [round(x)] (round half to even). *)
Definition round_half_even (x : Q) : Z :=
  let f := Qfloor x in
  let r := x - inject_Z f in
  if Qlt_bool r (1 # 2) then f
  else if Qlt_bool (1 # 2) r then (f + 1)%Z
  else if Z.even f then f else (f + 1)%Z.

(** [round(x, 4)] *)
Definition round4 (x : Q) : Q := inject_Z (round_half_even (x * 10000)) / 10000.

(** The callers' view of the database ([CandidateService], [JobService]). *)
Record Database := mkDatabase {
  get_candidate_by_id : Z -> option pydict;
  get_job : Z -> option pydict
}.

(** A weight map, a Python [Dict[str, float]]. *)
Definition weight_map := list (string * Q).

Definition default_weights : weight_map :=
  [("skills", 0.30); ("experience", 0.25); ("education", 0.15);
   ("language", 0.03); ("certification", 0.02); ("semantic", 0.05);
   ("seniority", 0.02)]%string.

Fixpoint wlookup (w : weight_map) (k : string) : option Q :=
  match w with
  | [] => None
  | (k', v) :: w' => if String.eqb k k' then Some v else wlookup w' k
  end.

(** [weights[k]] *)
Definition wget (w : weight_map) (k : string) : result Q :=
  match wlookup w k with Some v => Ok v | None => Raise KeyError end.

(** [sum(weights.values())] *)
Definition sum_values (w : weight_map) : Q := List.fold_left Qplus (List.map snd w) 0.

(** The seven metric scores, in the order they are computed. *)
Record metric_scores := mkMetrics {
  m_skills : Q; m_experience : Q; m_education : Q; m_language : Q;
  m_certification : Q; m_semantic : Q; m_seniority : Q
}.

(** Lines 130-139: the weighted overall score. *)
Definition weighted_overall (m : metric_scores) (w : weight_map) : result Q :=
  ws ← wget w "skills"; we ← wget w "experience"; wd ← wget w "education";
  wm ← wget w "semantic"; wn ← wget w "seniority"; wl ← wget w "language";
  wc ← wget w "certification";
  let overall := m.(m_skills) * ws + m.(m_experience) * we + m.(m_education) * wd
                 + m.(m_semantic) * wm + m.(m_seniority) * wn + m.(m_language) * wl
                 + m.(m_certification) * wc in
  let total := sum_values w in
  if Qeq_bool total 0 then Raise ZeroDivisionError else Ok (overall / total).

(** [_create_empty_score] *)
Definition create_empty_score : SimilarityScore :=
  mkScore 0 0 0 0 0 0 BEmpty.

(** [if not candidate:] *)
Definition candidate_missing (c : option pydict) : bool :=
  match c with None | Some [] => true | Some _ => false end.

Section Orchestrator.
Context `{EmbeddingModel}.
Local Open Scope se_scope.

(** The seven [calculate] calls (lines 121-127); only the experience
    metric touches the shared context. *)
Definition all_metrics (candidate : pydict) : SE JobContext metric_scores :=
  ctx <-- se_get ;;
  let skills := Skills.calculate candidate ctx in
  experience <-- Experience.calculate candidate ;;
  ctx' <-- se_get ;;
  let education := Education.calculate candidate ctx' in
  let language := Language.calculate candidate ctx' in
  let certification := Certification.calculate candidate ctx' in
  let semantic := Semantic.calculate candidate ctx' in
  let seniority := Seniority.calculate candidate ctx' in
  se_ret (mkMetrics skills experience education language certification semantic seniority).

(** [_calculate_similarity_with_context] *)
Definition calculate_similarity_with_context (db : Database) (candidate_id : Z)
    (weights : option weight_map) : SE JobContext SimilarityScore :=
  let w := match weights with None => default_weights | Some w => w end in
  let cand := db.(get_candidate_by_id) candidate_id in
  match cand with
  | Some candidate =>
    if candidate_missing cand then se_ret create_empty_score
    else
      m <-- all_metrics candidate ;;
      overall <-- se_lift (weighted_overall m w) ;;
      ctx <-- se_get ;;
      se_ret (mkScore (round4 overall) (round4 m.(m_skills)) (round4 m.(m_experience))
                (round4 m.(m_education)) (round4 m.(m_semantic)) (round4 m.(m_seniority))
                (BDetail (round4 m.(m_certification)) w ctx.(job_id) true))
  | None => se_ret create_empty_score
  end.

End Orchestrator.

(* ------------------------------------------------------------------ *)
(** ** [AdvancedSimilarityEngine]: the job-context cache *)

Module Engine.

(** The engine's state. [JobContext] objects live in a heap so that the
    cache and the callers share them, as Python objects are shared;
    [constructions] records the [job_id] of every [JobContext(...)]
    construction (an observation, not a field of the Python object). *)
Record engine := mkEngine {
  job_context_cache : gmap Z nat;
  objects : gmap nat JobContext;
  next_object : nat;
  constructions : list Z
}.

Definition empty_engine : engine := mkEngine ∅ ∅ 0%nat [].

Section WithModel.
Context `{EmbeddingModel}.
Local Open Scope se_scope.

(** [preprocess_job]: the object id of the job's context. *)
Definition preprocess_job (db : Database) (jid : Z) : SE engine nat :=
  fun st =>
    match st.(job_context_cache) !! jid with
    | Some o => (Ok o, st)
    | None =>
        let job := db.(get_job) jid in
        match job with
        | Some j =>
            if candidate_missing job then (Raise ValueError, st)
            else
              match build_job_context jid j with
              | Ok c =>
                  let o := st.(next_object) in
                  (Ok o, mkEngine (<[jid := o]> st.(job_context_cache))
                                  (<[o := c]> st.(objects)) (S o)
                                  (st.(constructions) ++ [jid]))
              | Raise e => (Raise e, st)
              end
        | None => (Raise ValueError, st)
        end
    end.

(** Run code on the context object [o], in place. *)
Definition with_object {A} (o : nat) (m : SE JobContext A) : SE engine A :=
  fun st =>
    match st.(objects) !! o with
    | Some c =>
        let '(r, c') := m c in
        (r, mkEngine st.(job_context_cache) (<[o := c']> st.(objects))
                     st.(next_object) st.(constructions))
    | None => (Raise AttributeError, st)
    end.

Fixpoint score_all (db : Database) (o : nat) (candidate_ids : list Z)
    (weights : option weight_map) : SE engine (list SimilarityScore) :=
  match candidate_ids with
  | [] => se_ret []
  | cid :: rest =>
      s <-- with_object o (calculate_similarity_with_context db cid weights) ;;
      ss <-- score_all db o rest weights ;;
      se_ret (s :: ss)
  end.

(** [calculate_similarity_batch] *)
Definition calculate_similarity_batch (db : Database) (candidate_ids : list Z)
    (jid : Z) (weights : option weight_map) : SE engine (list SimilarityScore) :=
  o <-- preprocess_job db jid ;;
  score_all db o candidate_ids weights.

(** [calculate_similarity] *)
Definition calculate_similarity (db : Database) (candidate_id jid : Z)
    (weights : option weight_map) : SE engine SimilarityScore :=
  o <-- preprocess_job db jid ;;
  with_object o (calculate_similarity_with_context db candidate_id weights).

(** [clear_cache(job_id=None)]: [if job_id:] is false for [None] and [0]. *)
Definition clear_cache (arg : option Z) : SE engine unit :=
  fun st =>
    let cache' :=
      match arg with
      | Some jid => if negb (Z.eqb jid 0) then delete jid st.(job_context_cache) else ∅
      | None => ∅
      end in
    (Ok tt, mkEngine cache' st.(objects) st.(next_object) st.(constructions)).

(** [get_cached_job_ids] (as a set) *)
Definition get_cached_job_ids (st : engine) : gset Z := dom st.(job_context_cache).

(** The public operations, for runs of the engine. *)
Inductive op : Type :=
| OpPreprocess (jid : Z)
| OpBatch (candidate_ids : list Z) (jid : Z) (weights : option weight_map)
| OpSingle (candidate_id jid : Z) (weights : option weight_map)
| OpClear (arg : option Z).

Definition exec_op (db : Database) (o : op) : SE engine unit :=
  match o with
  | OpPreprocess jid => preprocess_job db jid ;;; se_ret tt
  | OpBatch cids jid w => calculate_similarity_batch db cids jid w ;;; se_ret tt
  | OpSingle cid jid w => calculate_similarity db cid jid w ;;; se_ret tt
  | OpClear arg => clear_cache arg
  end.

(** A sequence of calls, each against the database as it is then; a call
    that raises does not stop the later ones. *)
Fixpoint run (calls : list (Database * op)) (st : engine) : engine :=
  match calls with
  | [] => st
  | (db, o) :: calls' => run calls' (snd (exec_op db o st))
  end.

End WithModel.
End Engine.

(* ------------------------------------------------------------------ *)
(** ** The matching endpoint (api.py, [get_matching_candidates_for_job]) *)

(** An HTTP answer: the body, or the status code of an [HTTPException]. *)
Inductive http_result (A : Type) : Type :=
| HOk (a : A)
| HError (status_code : Z).
Arguments HOk {A} a.
Arguments HError {A} status_code.

(** [MatchResponse]: the candidate's [id] and [full_name], and the score
    fields it copies from the candidate's [SimilarityScore]. *)
Record MatchResponse := mkMatch {
  candidate_id : Z;
  candidate_name : pyval;
  match_score : SimilarityScore
}.

(** [candidate["id"]]. The column is [id INTEGER PRIMARY KEY] (database.py),
    so the rows [CandidateService.get_candidates] returns hold integers;
    another value is not modelled and raises here. *)
Definition candidate_row_id (candidate : pydict) : result Z :=
  match dict_lookup candidate "id" with
  | Some (PInt z) => Ok z
  | Some _ => Raise TypeError
  | None => Raise KeyError
  end.

(** Lines 349-366: [for i, result in enumerate(similarity_results)]; an
    exception ([all_candidates[i]], [candidate["id"]]) is answered by the
    handler's [except Exception] with status 500. *)
Fixpoint collect_matches (all_candidates : list pydict) (min_score : Q) (i : nat)
    (results : list SimilarityScore) : http_result (list MatchResponse) :=
  match results with
  | [] => HOk []
  | r :: rs =>
      if Qle_bool min_score r.(overall_score) then
        match nth_error all_candidates i with
        | None => HError 500
        | Some candidate =>
            match candidate_row_id candidate with
            | Raise _ => HError 500
            | Ok cid =>
                match collect_matches all_candidates min_score (S i) rs with
                | HOk ms => HOk (mkMatch cid (dget candidate "full_name" PNone) r :: ms)
                | HError code => HError code
                end
            end
        end
      else collect_matches all_candidates min_score (S i) rs
  end.

(** [key=lambda x: x.overall_score] *)
Definition match_key (m : MatchResponse) : Q := m.(match_score).(overall_score).

(** [matching_candidates.sort(key=..., reverse=True)]: Python's sort is
    stable and [reverse=True] keeps equal keys in their original order, so
    the result is this insertion sort, which puts a later element after
    the earlier ones of the same key. *)
Fixpoint insert_desc (m : MatchResponse) (ms : list MatchResponse) : list MatchResponse :=
  match ms with
  | [] => [m]
  | m' :: ms' =>
      if Qle_bool (match_key m') (match_key m) then m :: m' :: ms'
      else m' :: insert_desc m ms'
  end.

Fixpoint sort_desc (ms : list MatchResponse) : list MatchResponse :=
  match ms with
  | [] => []
  | m :: ms' => insert_desc m (sort_desc ms')
  end.

Section Endpoint.
Context `{EmbeddingModel}.

(** [get_matching_candidates_for_job(job_id, min_score, limit)], where
    [all_candidates] is what [CandidateService.get_candidates(skip=0,
    limit=1000)] returns (that call and [JobService.get_job] catch their
    own exceptions). The [Query] bounds are checked by FastAPI before the
    handler runs (status 422). *)
Definition get_matching_candidates_for_job (db : Database) (all_candidates : list pydict)
    (jid : Z) (min_score : Q) (limit : Z) (st : Engine.engine)
    : http_result (list MatchResponse) * Engine.engine :=
  if negb (Qle_bool 0 min_score && Qle_bool min_score 1 && (1 <=? limit)%Z
           && (limit <=? 500)%Z)
  then (HError 422, st)
  else if candidate_missing (db.(get_job) jid) then (HError 404, st)
  else
    match all_candidates with
    | [] => (HOk [], st)
    | _ :: _ =>
        match mapM_res candidate_row_id all_candidates with
        | Raise _ => (HError 500, st)
        | Ok candidate_ids =>
            let '(r, st') := Engine.calculate_similarity_batch db candidate_ids jid None st in
            match r with
            | Raise _ => (HError 500, st')
            | Ok similarity_results =>
                match collect_matches all_candidates min_score 0 similarity_results with
                | HOk ms => (HOk (firstn (Z.to_nat limit) (sort_desc ms)), st')
                | HError code => (HError code, st')
                end
            end
        end
    end.

End Endpoint.

(* ------------------------------------------------------------------ *)
(** ** Concrete inputs *)

(** An embedding model whose search always returns distance 0. *)
Definition exact_model : EmbeddingModel := {|
  embed_document := fun _ => Ok tt;
  search_top1 := fun docs _ => match docs with [] => Ok None | _ => Ok (Some 0) end
|}.

Definition sample_context (skills : list string) (level : string)
    (mn : Z) (mx : option Z) : JobContext :=
  mkJobContext 1%Z [("job_title", PStr "Backend Engineer")]%string skills
    "Build APIs" [] [] [] mn mx level "" None.

Definition sample_job : pydict :=
  [("job_title", PStr "Backend Engineer"); ("required_skills", PList [PStr "Python"]);
   ("responsibilities", PList [PStr "Build APIs"]); ("seniority_level", PStr "Senior");
   ("min_years_experience", PInt 3)]%string.

Definition sample_candidate : pydict :=
  [("full_name", PStr "A. Candidate"); ("years_of_experience", PInt 5);
   ("skills", PList [PDict [("category", PStr "Technical");
                            ("skills", PList [PStr "Python"; PStr "SQL"])]]);
   ("experience", PList [PDict [("job_title", PStr "Backend Developer");
                                ("responsibilities", PList [PStr "Built APIs"])]]);
   ("summary", PStr "Backend developer")]%string.

(** A database holding job 1 and candidate 7 only (or nothing). *)
Definition sample_db : Database :=
  mkDatabase (fun cid => if Z.eqb cid 7 then Some sample_candidate else None)
             (fun jid => if Z.eqb jid 1 then Some sample_job else None).
Definition empty_db : Database := mkDatabase (fun _ => None) (fun _ => None).

(** A candidate whose position has [job_title: null] ([Experience.job_title]
    is [Optional[str]] in models.py). *)
Definition null_title_candidate : pydict :=
  [("full_name", PStr "B. Candidate"); ("years_of_experience", PInt 2);
   ("experience", PList [PDict [("job_title", PNone);
                                ("responsibilities", PList [PStr "Ops"])]])]%string.

Definition null_title_db : Database :=
  mkDatabase (fun cid => if Z.eqb cid 7 then Some sample_candidate
                         else if Z.eqb cid 9 then Some null_title_candidate else None)
             (fun jid => if Z.eqb jid 1 then Some sample_job else None).

(* ------------------------------------------------------------------ *)
(** ** Vocabulary of the properties *)

(** Number of [JobContext] constructions for [jid] so far. *)
Definition builds_of (st : Engine.engine) (jid : Z) : nat :=
  count_occ Z.eq_dec (Engine.constructions st) jid.

(** Does a call remove the cache entry of [jid]? ([clear_cache()] and
    [clear_cache(0)] clear everything.) *)
Definition evicts (jid : Z) (o : Engine.op) : bool :=
  match o with
  | Engine.OpClear None => true
  | Engine.OpClear (Some z) => Z.eqb z 0 || Z.eqb z jid
  | _ => false
  end.

(** How the cache entry of [jid] may change over calls that do not evict
    it: a present entry keeps its object and no build happens; an absent
    one either stays absent with no build, or appears with one build. *)
Definition cache_step (jid : Z) (st st' : Engine.engine) : Prop :=
  (forall o, Engine.job_context_cache st !! jid = Some o ->
     Engine.job_context_cache st' !! jid = Some o /\ builds_of st' jid = builds_of st jid) /\
  (Engine.job_context_cache st !! jid = None ->
     (Engine.job_context_cache st' !! jid = None /\ builds_of st' jid = builds_of st jid) \/
     (is_Some (Engine.job_context_cache st' !! jid) /\ builds_of st' jid = S (builds_of st jid))).

(** [c'] is [c] with every field unchanged except the lazy index, which
    may go from [None] to present but, once present, stays the same. *)
Definition evolves (c c' : JobContext) : Prop :=
  c' = set_vector_store c (vector_store c') /\
  (forall v, vector_store c = Some v -> vector_store c' = Some v).

(** Code run on a context only lets it evolve. *)
Definition se_evolves {A} (m : SE JobContext A) : Prop :=
  forall c, evolves c (snd (m c)).

(** Every context object present in [st] has only evolved in [st']. *)
Definition heap_evolves (st st' : Engine.engine) : Prop :=
  forall o c, Engine.objects st !! o = Some c ->
  exists c', Engine.objects st' !! o = Some c' /\ evolves c c'.

(** Object ids from [next_object] on are unused. *)
Definition heap_wf (st : Engine.engine) : Prop :=
  forall o, (Engine.next_object st <= o)%nat -> Engine.objects st !! o = None.

(** An engine computation keeps the heap well formed and only lets its
    context objects evolve. *)
Definition eng_evolves {A} (m : SE Engine.engine A) : Prop :=
  forall st, heap_wf st -> heap_wf (snd (m st)) /\ heap_evolves st (snd (m st)).

(** The seven keys [_calculate_similarity_with_context] reads from a
    weight map, and the value of a key (0 where absent). *)
Definition metric_keys : list string :=
  ["skills"; "experience"; "education"; "semantic"; "seniority"; "language";
   "certification"]%string.

Definition wval (w : weight_map) (k : string) : Q :=
  match wlookup w k with Some v => v | None => 0 end.

(** The weighted sum of the seven scores, in the order of lines 131-137. *)
Definition weighted_sum (m : metric_scores) (wt : string -> Q) : Q :=
  m.(m_skills) * wt "skills"%string + m.(m_experience) * wt "experience"%string
  + m.(m_education) * wt "education"%string + m.(m_semantic) * wt "semantic"%string
  + m.(m_seniority) * wt "seniority"%string + m.(m_language) * wt "language"%string
  + m.(m_certification) * wt "certification"%string.

(** A score in the closed interval [0, 1]. *)
Definition in01 (x : Q) : Prop := 0 <= x /\ x <= 1.

(** Every value a context computation returns without raising
    satisfies [P]. *)
Definition se_post {A} (P : A -> Prop) (m : SE JobContext A) : Prop :=
  forall c v c', m c = (Ok v, c') -> P v.

(** The number of dict items of a list (the positions [sum_positions]
    scores). *)
Fixpoint count_dicts (xs : list pyval) : nat :=
  match xs with
  | [] => 0
  | PDict _ :: xs' => S (count_dicts xs')
  | _ :: xs' => count_dicts xs'
  end.

Definition metrics_in01 (m : metric_scores) : Prop :=
  in01 m.(m_skills) /\ in01 m.(m_experience) /\ in01 m.(m_education) /\
  in01 m.(m_language) /\ in01 m.(m_certification) /\ in01 m.(m_semantic) /\
  in01 m.(m_seniority).

(** The scores a [SimilarityScore] carries: the five fields and the
    certification score of the breakdown. *)
Definition score_in01 (s : SimilarityScore) : Prop :=
  in01 s.(overall_score) /\ in01 s.(skills_score) /\ in01 s.(experience_score) /\
  in01 s.(education_score) /\ in01 s.(semantic_similarity) /\ in01 s.(seniority_match) /\
  match s.(detailed_breakdown) with
  | BDetail cert _ _ _ => in01 cert
  | BEmpty => True
  end.

(** When [_fuzzy_match_skills] adds a required skill: it is listed
    verbatim, or some candidate skill reaches the threshold. *)
Definition skill_matched (thr : Q) (candidate_skills : list string) (r : string) : bool :=
  if in_dec string_dec r candidate_skills then true
  else existsb (fun c => Qle_bool thr (Difflib.ratio r c)) candidate_skills.

(** A candidate with languages and certifications, and a job context
    that requires some. *)
Definition polyglot_candidate : pydict :=
  [("full_name", PStr "C. Candidate"); ("years_of_experience", PInt 4);
   ("languages", PList [PDict [("language", PStr "English"); ("proficiency", PStr "Fluent")];
                        PDict [("language", PStr "German"); ("proficiency", PStr "Basic")]]);
   ("certifications", PList [PDict [("name", PStr "AWS Certified Developer")]; PStr "PMP"])]%string.

Definition cert_lang_context : JobContext :=
  mkJobContext 1%Z [] [] "" [] [("english", "advanced"); ("german", "intermediate")]%string
    ["aws certified developer"; "pmp"]%string 0%Z None "" "" None.

(** One step of the loop of [_calculate_single_language_match]. *)
Definition language_step (rn rl : string) (best : Q) (cl : string * string) : Q :=
  let '(candidate_name, candidate_proficiency) := cl in
  let name_similarity := Difflib.ratio rn candidate_name in
  if Qle_bool 0.8 name_similarity then
    let candidate_level_score := Language.proficiency_level candidate_proficiency in
    let proficiency_match :=
      if (Language.proficiency_level rl <=? candidate_level_score)%Z then 1
      else Q_of_Z candidate_level_score / Q_of_Z (Language.proficiency_level rl) in
    Qmax best (name_similarity * proficiency_match)
  else best.

(** A block [(i, j, k)] inside [a[alo:ahi]] and [b[blo:bhi]]. *)
Definition block_ok (alo ahi blo bhi : nat) (x : Difflib.block) : Prop :=
  let '(bi, bj, bs) := x in
  (alo <= bi /\ bi + bs <= ahi /\ blo <= bj /\ bj + bs <= bhi)%nat.

(** The run lengths [j2len] recorded while scanning row [r - 1] of
    [find_longest_match] on [a[alo:]] and [b[blo:]]. *)
Definition j2len_ok (alo blo r : nat) (m : list (nat * nat)) : Prop :=
  forall j k, In (j, k) m -> (k + blo <= j + 1 /\ k + alo <= r)%nat.

(* ================================================================== *)
(** * Properties *)

Example ratio_Python_python : Difflib.ratio "Python" "python" = (10 # 12)%Q.
Proof. reflexivity. Qed.
Example ratio_abcd_bcda : Difflib.ratio "abcd" "bcda" = (6 # 8)%Q.
Proof. reflexivity. Qed.
Example ratio_Python_Java : Difflib.ratio "Python" "Java" = (0 # 10)%Q.
Proof. reflexivity. Qed.
Example q_dec : (0.6 == 3 # 5)%Q.
Proof. reflexivity. Qed.


Lemma py_num_years (candidate : pydict) (y : Z) :
  dget candidate "years_of_experience" (PInt 0) = PInt y ->
  py_num (years_of_experience candidate) = Ok y.
Proof.
  intros Hy. unfold years_of_experience, py_or. rewrite Hy.
  simpl. destruct (Z.eqb y 0) eqn:E; simpl; [apply Z.eqb_eq in E; subst|]; reflexivity.
Qed.

(** ** Cache eviction *)

Lemma clear_cache_nonzero (st : Engine.engine) (jid : Z) :
  jid <> 0%Z ->
  Engine.job_context_cache (snd (Engine.clear_cache (Some jid) st))
  = delete jid (Engine.job_context_cache st).
Proof.
  intros Hj. unfold Engine.clear_cache. simpl.
  destruct (Z.eqb_spec jid 0); [contradiction|reflexivity].
Qed.

(** C9 (defect): [clear_cache(0)] tests [if job_id:], which is false for
    [0], so it clears every cached job instead of removing at most the
    entry of job 0: with job 1 cached and job 0 absent, job 1 is gone. *)
Lemma clear_cache_zero_clears_all :
  let st := Engine.mkEngine {[1%Z := 0%nat]} ∅ 1 [1%Z] in
  Engine.job_context_cache st !! 0%Z = None /\
  Engine.job_context_cache st !! 1%Z = Some 0%nat /\
  Engine.job_context_cache (snd (Engine.clear_cache (Some 0%Z) st)) !! 1%Z = None.
Proof. vm_compute. auto. Qed.

(** ** Experience: the years component *)

(** C10: a [max_years_experience] of [0] is falsy in
    [if max_preferred and ...], so it acts like an absent maximum: a
    candidate with at least the minimum years gets the years component
    [1.0], and [calculate] is [0.6 * 1.0 + 0.4 * relevance]. *)
Theorem experience_max_zero_no_decay `{EmbeddingModel} (candidate : pydict)
    (ctx : JobContext) (y : Z) :
  (max_years_experience ctx = None \/ max_years_experience ctx = Some 0%Z) ->
  py_num (years_of_experience candidate) = Ok y ->
  (min_years_experience ctx <= y)%Z ->
  Experience.years_score y (min_years_experience ctx) (max_years_experience ctx) = 1 /\
  Experience.calculate candidate ctx =
    (let '(r, ctx') := Experience.experience_relevance candidate ctx in
     (match r with Ok rel => Ok (1 * 0.6 + rel * 0.4) | Raise e => Raise e end, ctx')).
Proof.
  intros Hmax Hy Hmin.
  assert (Hys : Experience.years_score y (min_years_experience ctx)
                  (max_years_experience ctx) = 1).
  { unfold Experience.years_score.
    apply Z.leb_le in Hmin. rewrite Hmin.
    destruct Hmax as [-> | ->]; reflexivity. }
  split; [exact Hys|].
  unfold Experience.calculate, se_bind, se_get, se_lift. rewrite Hy, Hys.
  destruct (Experience.experience_relevance candidate ctx) as [[rel|e] ctx'];
    reflexivity.
Qed.

Lemma experience_max_zero_no_decay_witness :
  (max_years_experience (sample_context [] "" 3 (Some 0%Z)) = None \/
   max_years_experience (sample_context [] "" 3 (Some 0%Z)) = Some 0%Z) /\
  py_num (years_of_experience [("years_of_experience", PInt 40)]%string) = Ok 40%Z /\
  (min_years_experience (sample_context [] "" 3 (Some 0%Z)) <= 40)%Z /\
  Experience.years_score 40 3 (Some 0%Z) = 1 /\
  @Experience.calculate exact_model [("years_of_experience", PInt 40)]%string
     (sample_context [] "" 3 (Some 0%Z))
  = (let '(r, ctx') := @Experience.experience_relevance exact_model
                          [("years_of_experience", PInt 40)]%string
                          (sample_context [] "" 3 (Some 0%Z)) in
     (match r with Ok rel => Ok (1 * 0.6 + rel * 0.4) | Raise e => Raise e end, ctx')).
Proof.
  assert (Hm : max_years_experience (sample_context [] "" 3 (Some 0%Z)) = None \/
               max_years_experience (sample_context [] "" 3 (Some 0%Z)) = Some 0%Z)
    by (right; reflexivity).
  assert (Hy : py_num (years_of_experience [("years_of_experience", PInt 40)]%string)
               = Ok 40%Z) by reflexivity.
  assert (Hmin : (min_years_experience (sample_context [] "" 3 (Some 0%Z)) <= 40)%Z)
    by (simpl; lia).
  destruct (@experience_max_zero_no_decay exact_model
              [("years_of_experience", PInt 40)]%string
              (sample_context [] "" 3 (Some 0%Z)) 40 Hm Hy Hmin) as [H1 H2].
  split; [exact Hm|]. split; [exact Hy|]. split; [exact Hmin|].
  split; [exact H1|exact H2].
Defined.

(** ** Seniority *)

Lemma band_score_cases (mn mx y : Z) :
  (mn <= mx)%Z ->
  ((mn <= y <= mx)%Z -> Seniority.band_score mn mx y = 1) /\
  ((y < mn)%Z -> Seniority.band_score mn mx y = Qmax 0.3 (Q_of_Z y / Q_of_Z (Z.max mn 1))) /\
  ((mx < y)%Z -> Seniority.band_score mn mx y = Qmax 0.7 (1 - Q_of_Z (y - mx) * 0.05)).
Proof.
  intros Hle. unfold Seniority.band_score.
  repeat split; intros Hc.
  - destruct Hc as [H1 H2]. apply Z.leb_le in H1, H2. now rewrite H1, H2.
  - assert (E : (mn <=? y)%Z = false) by (apply Z.leb_gt; lia).
    rewrite E. simpl. apply Z.ltb_lt in Hc. now rewrite Hc.
  - assert (E1 : (mn <=? y)%Z = true) by (apply Z.leb_le; lia).
    assert (E2 : (y <=? mx)%Z = false) by (apply Z.leb_gt; lia).
    assert (E3 : (y <? mn)%Z = false) by (apply Z.ltb_ge; lia).
    now rewrite E1, E2, E3.
Qed.

Lemma seniority_ranges_ordered (label : string) (mn mx : Z) :
  Seniority.seniority_ranges label = Some (mn, mx) -> (mn <= mx)%Z.
Proof.
  unfold Seniority.seniority_ranges.
  repeat match goal with
         | |- context [if String.eqb ?a ?b then _ else _] => destruct (String.eqb a b)
         end; intros H; inversion H; lia.
Qed.

(** C7: for a recognised seniority label (compared after [lower()]) with
    band [[mn, mx]] and numeric years [y], the score is [1.0] inside the
    band, [max(0.3, y / max(mn, 1))] below it and
    [max(0.7, 1 - 0.05 (y - mx))] above it; for "Senior" (any case) the
    band is [[7, 15]] and 10, 3 and 30 years give [1.0], [max(0.3, 3/7)]
    and [0.7]. *)
Theorem seniority_band_scores (candidate : pydict) (ctx : JobContext) (y : Z) :
  dget candidate "years_of_experience" (PInt 0) = PInt y ->
  (forall mn mx,
     Seniority.seniority_ranges (str_lower (seniority_level ctx)) = Some (mn, mx) ->
     ((mn <= y <= mx)%Z -> Seniority.calculate candidate ctx == 1) /\
     ((y < mn)%Z -> Seniority.calculate candidate ctx
                    == Qmax 0.3 (Q_of_Z y / Q_of_Z (Z.max mn 1))) /\
     ((mx < y)%Z -> Seniority.calculate candidate ctx
                    == Qmax 0.7 (1 - Q_of_Z (y - mx) * 0.05))) /\
  (str_lower (seniority_level ctx) = "senior"%string ->
     Seniority.seniority_ranges "senior" = Some (7, 15)%Z /\
     (y = 10%Z -> Seniority.calculate candidate ctx == 1) /\
     (y = 3%Z -> Seniority.calculate candidate ctx == Qmax 0.3 (3 # 7)) /\
     (y = 30%Z -> Seniority.calculate candidate ctx == 0.7)).
Proof.
  intros Hy.
  assert (Hcalc : forall mn mx,
    Seniority.seniority_ranges (str_lower (seniority_level ctx)) = Some (mn, mx) ->
    Seniority.calculate candidate ctx = Seniority.band_score mn mx y).
  { intros mn mx Hr. unfold Seniority.calculate. rewrite Hr.
    rewrite (py_num_years candidate y Hy). reflexivity. }
  assert (Hgen : forall mn mx,
     Seniority.seniority_ranges (str_lower (seniority_level ctx)) = Some (mn, mx) ->
     ((mn <= y <= mx)%Z -> Seniority.calculate candidate ctx == 1) /\
     ((y < mn)%Z -> Seniority.calculate candidate ctx
                    == Qmax 0.3 (Q_of_Z y / Q_of_Z (Z.max mn 1))) /\
     ((mx < y)%Z -> Seniority.calculate candidate ctx
                    == Qmax 0.7 (1 - Q_of_Z (y - mx) * 0.05))).
  { intros mn mx Hr. rewrite (Hcalc mn mx Hr).
    destruct (band_score_cases mn mx y (seniority_ranges_ordered _ _ _ Hr))
      as [H1 [H2 H3]].
    repeat split; intros Hc; [rewrite H1 | rewrite H2 | rewrite H3]; auto; reflexivity. }
  split; [exact Hgen|].
  intros Hs. assert (Hr : Seniority.seniority_ranges (str_lower (seniority_level ctx))
                          = Some (7, 15)%Z) by (rewrite Hs; reflexivity).
  split; [reflexivity|].
  rewrite (Hcalc 7%Z 15%Z Hr).
  repeat split; intros ->; vm_compute; reflexivity.
Qed.

Lemma seniority_band_scores_witness :
  dget [("years_of_experience", PInt 3)]%string "years_of_experience" (PInt 0) = PInt 3 /\
  str_lower (seniority_level (sample_context [] "Senior" 0 None)) = "senior"%string /\
  Seniority.calculate [("years_of_experience", PInt 3)]%string
    (sample_context [] "Senior" 0 None) == Qmax 0.3 (3 # 7).
Proof.
  assert (Hy : dget [("years_of_experience", PInt 3)]%string "years_of_experience" (PInt 0)
               = PInt 3) by reflexivity.
  assert (Hs : str_lower (seniority_level (sample_context [] "Senior" 0 None))
               = "senior"%string) by reflexivity.
  split; [exact Hy|]. split; [exact Hs|].
  destruct (seniority_band_scores _ (sample_context [] "Senior" 0 None) 3 Hy) as [_ Hsen].
  destruct (Hsen Hs) as [_ [_ [H3 _]]]. exact (H3 eq_refl).
Defined.

(** ** Skills *)

(** C5 fails as stated: the skills are compared verbatim, without
    case folding, so "python" matches "Python" only fuzzily (ratio 10/12)
    and the union [{"python", "Python"}] has two elements: the score is
    [1/2], not [1.0]. *)
Lemma skills_python_lowercase_is_half :
  Skills.calculate [("skills", PList [PStr "python"])]%string
    (sample_context ["Python"]%string "" 0 None) == 1 # 2 /\
  ~ (Skills.calculate [("skills", PList [PStr "python"])]%string
       (sample_context ["Python"]%string "" 0 None) == 1).
Proof. vm_compute. split; [reflexivity | discriminate]. Qed.

(** C5 (as amended): with no required skills the score is [0.8] for
    every candidate whose skills field can be read (a malformed one, e.g.
    an integer, takes the [except] fallback [0.0]); for required
    ["Python"] a candidate with ["python"] scores [1/2] (one fuzzy match,
    union of two distinct strings) and one with ["Java"] scores [0.0]. *)
Theorem skills_reference_cases (candidate : pydict) (ctx : JobContext) :
  (required_skills ctx = [] ->
   (exists l, Skills.extract_candidate_skills candidate = Ok l) ->
   Skills.calculate candidate ctx = 0.8) /\
  (forall e, Skills.extract_candidate_skills candidate = Raise e ->
   Skills.calculate candidate ctx = 0) /\
  (required_skills ctx = ["Python"]%string ->
   Skills.calculate [("skills", PList [PStr "python"])]%string ctx == 1 # 2 /\
   Skills.calculate [("skills", PList [PStr "Java"])]%string ctx == 0).
Proof.
  split; [|split].
  - intros Hr [l Hl]. unfold Skills.calculate. rewrite Hl, Hr. reflexivity.
  - intros e He. unfold Skills.calculate. rewrite He. reflexivity.
  - intros Hr. unfold Skills.calculate. rewrite Hr.
    split; vm_compute; reflexivity.
Qed.

Lemma skills_reference_cases_witness :
  required_skills (sample_context [] "" 0 None) = [] /\
  Skills.extract_candidate_skills sample_candidate = Ok ["Python"; "SQL"]%string /\
  Skills.calculate sample_candidate (sample_context [] "" 0 None) = 0.8 /\
  Skills.calculate [("skills", PList [PStr "python"])]%string
    (sample_context ["Python"]%string "" 0 None) == 1 # 2.
Proof.
  assert (H0 : required_skills (sample_context [] "" 0 None) = []) by reflexivity.
  assert (Hx : Skills.extract_candidate_skills sample_candidate = Ok ["Python"; "SQL"]%string)
    by reflexivity.
  assert (H1 : required_skills (sample_context ["Python"]%string "" 0 None)
               = ["Python"]%string) by reflexivity.
  destruct (skills_reference_cases sample_candidate (sample_context [] "" 0 None))
    as [Ha _].
  destruct (skills_reference_cases sample_candidate (sample_context ["Python"]%string "" 0 None))
    as [_ [_ Hc]].
  split; [exact H0|]. split; [exact Hx|].
  split; [exact (Ha H0 (ex_intro _ _ Hx))|].
  exact (proj1 (Hc H1)).
Defined.

(** ** Exceptions in the metrics *)

(** C3 (defect): [ExperienceSimilarityMetric.calculate] has no [try]
    (unlike the six other metrics), so a position with [job_title: null]
    raises [AttributeError] from [None.lower()], and non-numeric years
    raise [TypeError] from [>=]; the exception reaches the orchestrator and
    aborts a whole batch. *)
Theorem experience_metric_raises `{EmbeddingModel} (ctx : JobContext) :
  fst (Experience.calculate null_title_candidate ctx) = Raise AttributeError /\
  fst (Experience.calculate [("years_of_experience", PStr "5")]%string ctx) = Raise TypeError /\
  fst (calculate_similarity_with_context null_title_db 9 None ctx) = Raise AttributeError.
Proof. split; [|split]; reflexivity. Qed.

Lemma batch_aborts_on_null_title :
  fst (@Engine.calculate_similarity_batch exact_model null_title_db [7; 9]%Z 1%Z None
         Engine.empty_engine) = Raise AttributeError.
Proof. vm_compute. reflexivity. Qed.

(** ** Failure modes of ranking *)

Lemma calculate_missing_candidate `{EmbeddingModel} (db : Database) (cid : Z)
    (w : option weight_map) (ctx : JobContext) :
  candidate_missing (get_candidate_by_id db cid) = true ->
  calculate_similarity_with_context db cid w ctx = (Ok create_empty_score, ctx).
Proof.
  intros Hm. unfold calculate_similarity_with_context.
  destruct (get_candidate_by_id db cid) as [c|]; [|reflexivity].
  rewrite Hm. reflexivity.
Qed.

Lemma engine_eta (st : Engine.engine) :
  Engine.mkEngine (Engine.job_context_cache st) (Engine.objects st)
    (Engine.next_object st) (Engine.constructions st) = st.
Proof. destruct st; reflexivity. Qed.

(** C6 does not hold as stated: once a job's context is cached, ranking
    never consults the job record again, so a job whose record has gone
    is still ranked without failure. *)
Lemma ranking_cached_job_without_record :
  let st1 := snd (@Engine.calculate_similarity_batch exact_model sample_db [] 1%Z None
                    Engine.empty_engine) in
  get_job empty_db 1 = None /\
  fst (@Engine.calculate_similarity_batch exact_model empty_db [7]%Z 1%Z None st1)
  = Ok [create_empty_score].
Proof. vm_compute. split; reflexivity. Qed.

(** C6 (as amended): ranking raises [ValueError], before scoring anyone
    and without changing the engine, when the job is neither cached nor
    backed by a (non-empty) record; a cached job is ranked from its cached
    context whatever the database holds; a candidate without a record is
    scored as the all-zero [SimilarityScore] (empty breakdown) without
    touching the context, and the batch goes on with the next ids. *)
Theorem ranking_failure_modes `{EmbeddingModel} (db : Database) (jid : Z)
    (cids : list Z) (w : option weight_map) (st : Engine.engine) :
  (Engine.job_context_cache st !! jid = None ->
   candidate_missing (get_job db jid) = true ->
   Engine.calculate_similarity_batch db cids jid w st = (Raise ValueError, st)) /\
  (forall o, Engine.job_context_cache st !! jid = Some o ->
   Engine.calculate_similarity_batch db cids jid w st = Engine.score_all db o cids w st) /\
  (forall cid ctx, candidate_missing (get_candidate_by_id db cid) = true ->
   calculate_similarity_with_context db cid w ctx = (Ok create_empty_score, ctx)) /\
  (forall o cid rest, is_Some (Engine.objects st !! o) ->
   candidate_missing (get_candidate_by_id db cid) = true ->
   Engine.score_all db o (cid :: rest) w st =
     (let '(r, st') := Engine.score_all db o rest w st in
      (match r with Ok l => Ok (create_empty_score :: l) | Raise e => Raise e end, st'))).
Proof.
  split; [|split; [|split]].
  - intros Hc Hj. unfold Engine.calculate_similarity_batch, se_bind, Engine.preprocess_job.
    rewrite Hc. destruct (get_job db jid) as [j|] eqn:Ej; [|reflexivity].
    rewrite Hj. reflexivity.
  - intros o Hc. unfold Engine.calculate_similarity_batch, se_bind, Engine.preprocess_job.
    rewrite Hc. reflexivity.
  - intros cid ctx Hm. apply calculate_missing_candidate; exact Hm.
  - intros o cid rest [c Hc] Hm. simpl. unfold se_bind at 1, Engine.with_object.
    rewrite Hc. rewrite (calculate_missing_candidate db cid w c Hm).
    rewrite (insert_id (Engine.objects st) o c Hc), engine_eta.
    unfold se_bind, se_ret.
    destruct (Engine.score_all db o rest w st) as [[l|e] st']; reflexivity.
Qed.

Lemma ranking_failure_modes_witness :
  Engine.job_context_cache Engine.empty_engine !! 1%Z = None /\
  candidate_missing (get_job empty_db 1) = true /\
  @Engine.calculate_similarity_batch exact_model empty_db [7]%Z 1%Z None Engine.empty_engine
  = (Raise ValueError, Engine.empty_engine).
Proof.
  assert (Hc : Engine.job_context_cache Engine.empty_engine !! 1%Z = None) by reflexivity.
  assert (Hj : candidate_missing (get_job empty_db 1) = true) by reflexivity.
  split; [exact Hc|]. split; [exact Hj|].
  exact (proj1 (@ranking_failure_modes exact_model empty_db 1 [7]%Z None
                  Engine.empty_engine) Hc Hj).
Defined.

(** ** The job-context cache *)

Lemma se_bind_snd {S A B} (m : SE S A) (k : A -> SE S B) (s : S) :
  snd (se_bind m k s) =
  match m s with (Ok a, s') => snd (k a s') | (Raise _, s') => s' end.
Proof. unfold se_bind. destruct (m s) as [[a|e] s']; reflexivity. Qed.

Lemma cache_step_refl (jid : Z) (st : Engine.engine) : cache_step jid st st.
Proof. split; [intros o Ho; auto | intros Hn; left; auto]. Qed.

Lemma cache_step_trans (jid : Z) (s1 s2 s3 : Engine.engine) :
  cache_step jid s1 s2 -> cache_step jid s2 s3 -> cache_step jid s1 s3.
Proof.
  intros [A1 B1] [A2 B2]. split.
  - intros o Ho. destruct (A1 o Ho) as [H2 C2]. destruct (A2 o H2) as [H3 C3].
    split; [exact H3 | congruence].
  - intros Hn. destruct (B1 Hn) as [[H2 C2] | [[o H2] C2]].
    + destruct (B2 H2) as [[H3 C3] | [H3 C3]]; [left | right]; split; auto; congruence.
    + right. destruct (A2 o H2) as [H3 C3]. split; [eexists; exact H3 | congruence].
Qed.

(** Scoring changes neither the cache nor the constructions. *)
Lemma with_object_frame `{EmbeddingModel} {A} (o : nat) (m : SE JobContext A)
    (st : Engine.engine) :
  Engine.job_context_cache (snd (Engine.with_object o m st)) = Engine.job_context_cache st /\
  Engine.constructions (snd (Engine.with_object o m st)) = Engine.constructions st.
Proof.
  unfold Engine.with_object. destruct (Engine.objects st !! o); [|auto].
  destruct (m j) as [r c']. auto.
Qed.

Lemma score_all_frame `{EmbeddingModel} (db : Database) (o : nat) (cids : list Z)
    (w : option weight_map) (st : Engine.engine) :
  Engine.job_context_cache (snd (Engine.score_all db o cids w st)) = Engine.job_context_cache st /\
  Engine.constructions (snd (Engine.score_all db o cids w st)) = Engine.constructions st.
Proof.
  revert st. induction cids as [|cid rest IH]; intros st; [auto|].
  simpl. rewrite se_bind_snd.
  destruct (with_object_frame o (calculate_similarity_with_context db cid w) st) as [F1 F2].
  destruct (Engine.with_object o (calculate_similarity_with_context db cid w) st)
    as [[s|e] st1] eqn:E; simpl in F1, F2 |- *; [|auto].
  rewrite se_bind_snd. destruct (IH st1) as [G1 G2].
  destruct (Engine.score_all db o rest w st1) as [[ss|e] st2]; simpl in G1, G2 |- *;
    split; congruence.
Qed.

Lemma frame_cache_step (jid : Z) (st st' : Engine.engine) :
  Engine.job_context_cache st' = Engine.job_context_cache st ->
  Engine.constructions st' = Engine.constructions st ->
  cache_step jid st st'.
Proof.
  intros Hc Hb. unfold cache_step, builds_of. rewrite Hc, Hb.
  split; [intros o Ho; auto | intros Hn; left; auto].
Qed.

Lemma preprocess_job_step (db : Database) (jid jid' : Z) (st : Engine.engine) :
  cache_step jid st (snd (Engine.preprocess_job db jid' st)).
Proof.
  unfold Engine.preprocess_job.
  destruct (Engine.job_context_cache st !! jid') as [o'|] eqn:Hc; [apply cache_step_refl|].
  destruct (get_job db jid') as [j|]; [|apply cache_step_refl].
  destruct (candidate_missing (Some j)); [apply cache_step_refl|].
  destruct (build_job_context jid' j) as [c|e]; [|apply cache_step_refl].
  simpl. unfold cache_step, builds_of. simpl. rewrite count_occ_app. simpl.
  destruct (Z.eq_dec jid' jid) as [<-|Hne].
  - rewrite lookup_insert_eq, Hc. split; [intros o Ho; discriminate|].
    intros _. right. split; [eexists; reflexivity | lia].
  - rewrite lookup_insert_ne by exact Hne.
    split; [intros o Ho; split; [exact Ho | lia] | intros Hn; left; split; [exact Hn | lia]].
Qed.

Lemma preprocess_then_step `{EmbeddingModel} {A} (db : Database) (jid jid' : Z)
    (k : nat -> SE Engine.engine A) (st : Engine.engine) :
  (forall o s, cache_step jid s (snd (k o s))) ->
  cache_step jid st (snd (se_bind (Engine.preprocess_job db jid') k st)).
Proof.
  intros Hk. rewrite se_bind_snd.
  pose proof (preprocess_job_step db jid jid' st) as Hp.
  destruct (Engine.preprocess_job db jid' st) as [[o|e] st1]; simpl in Hp; [|exact Hp].
  exact (cache_step_trans _ _ _ _ Hp (Hk o st1)).
Qed.

Lemma exec_op_step `{EmbeddingModel} (jid : Z) (db : Database) (o : Engine.op)
    (st : Engine.engine) :
  evicts jid o = false -> cache_step jid st (snd (Engine.exec_op db o st)).
Proof.
  intros Hev. destruct o as [jid' | cids jid' w | cid jid' w | arg]; simpl.
  - rewrite se_bind_snd. pose proof (preprocess_job_step db jid jid' st) as Hp.
    destruct (Engine.preprocess_job db jid' st) as [[o|e] st1]; exact Hp.
  - rewrite se_bind_snd. unfold Engine.calculate_similarity_batch.
    pose proof (preprocess_then_step db jid jid' (fun o => Engine.score_all db o cids w) st
                  (fun o s => let '(conj A B) := score_all_frame db o cids w s in
                              frame_cache_step jid s _ A B)) as Hs.
    destruct (se_bind (Engine.preprocess_job db jid') (fun o => Engine.score_all db o cids w) st)
      as [[r|e] st1]; exact Hs.
  - rewrite se_bind_snd. unfold Engine.calculate_similarity.
    pose proof (preprocess_then_step db jid jid'
                  (fun o => Engine.with_object o (calculate_similarity_with_context db cid w)) st
                  (fun o s => let '(conj A B) := with_object_frame o
                                 (calculate_similarity_with_context db cid w) s in
                              frame_cache_step jid s _ A B)) as Hs.
    destruct (se_bind (Engine.preprocess_job db jid')
                (fun o => Engine.with_object o (calculate_similarity_with_context db cid w)) st)
      as [[r|e] st1]; exact Hs.
  - destruct arg as [z|]; [|discriminate].
    simpl in Hev. apply orb_false_iff in Hev as [Hz Hj].
    apply Z.eqb_neq in Hz, Hj.
    unfold cache_step, builds_of, Engine.clear_cache. simpl.
    destruct (Z.eqb_spec z 0) as [|_]; [contradiction|]. simpl.
    rewrite lookup_delete_ne by exact Hj.
    split; [intros o Ho; auto | intros Hn; left; auto].
Qed.

Lemma run_step `{EmbeddingModel} (jid : Z) (calls : list (Database * Engine.op))
    (st : Engine.engine) :
  Forall (fun c => evicts jid (snd c) = false) calls ->
  cache_step jid st (Engine.run calls st).
Proof.
  revert st. induction calls as [|[db o] calls' IH]; intros st Hf; simpl.
  - apply cache_step_refl.
  - inversion Hf as [|? ? Hhd Htl]; subst. simpl in Hhd.
    exact (cache_step_trans _ _ _ _ (exec_op_step jid db o st Hhd) (IH _ Htl)).
Qed.

Lemma preprocess_job_hit (db : Database) (jid : Z) (o : nat) (st : Engine.engine) :
  Engine.job_context_cache st !! jid = Some o ->
  Engine.preprocess_job db jid st = (Ok o, st).
Proof. intros Hc. unfold Engine.preprocess_job. rewrite Hc. reflexivity. Qed.

(** C2 does not hold for the whole lifetime of the cache: after
    [clear_cache(job_id)] the next [preprocess_job] builds a second
    [JobContext], a different object. *)
Lemma rebuild_after_clear_cache :
  let st1 := snd (Engine.preprocess_job sample_db 1 Engine.empty_engine) in
  let st2 := snd (Engine.clear_cache (Some 1%Z) st1) in
  fst (Engine.preprocess_job sample_db 1 Engine.empty_engine) = Ok 0%nat /\
  fst (Engine.preprocess_job sample_db 1 st2) = Ok 1%nat /\
  builds_of (snd (Engine.preprocess_job sample_db 1 st2)) 1 = 2%nat.
Proof. vm_compute. repeat split. Qed.

(** C2 (as amended): on a cache miss for a job with a (non-empty) record
    whose context builds, [preprocess_job] builds one [JobContext], stores
    it under [job_id] and returns it; over any later sequence of calls that
    does not evict [job_id] ([clear_cache(job_id)], [clear_cache()] or
    [clear_cache(0)]), the entry keeps the same object, no further build
    for [job_id] happens, and [preprocess_job] returns that object without
    building; over such a sequence at most one build for [job_id] happens. *)
Theorem job_context_built_once `{EmbeddingModel} (jid : Z)
    (calls : list (Database * Engine.op)) (st : Engine.engine) :
  (forall db job c,
     Engine.job_context_cache st !! jid = None ->
     get_job db jid = Some job -> job <> [] ->
     build_job_context jid job = Ok c ->
     Engine.preprocess_job db jid st =
       (Ok (Engine.next_object st),
        Engine.mkEngine (<[jid := Engine.next_object st]> (Engine.job_context_cache st))
          (<[Engine.next_object st := c]> (Engine.objects st))
          (S (Engine.next_object st)) (Engine.constructions st ++ [jid]))) /\
  (Forall (fun c => evicts jid (snd c) = false) calls ->
   (forall o, Engine.job_context_cache st !! jid = Some o ->
      Engine.job_context_cache (Engine.run calls st) !! jid = Some o /\
      builds_of (Engine.run calls st) jid = builds_of st jid /\
      forall db, Engine.preprocess_job db jid (Engine.run calls st)
                 = (Ok o, Engine.run calls st)) /\
   (builds_of (Engine.run calls st) jid <= S (builds_of st jid))%nat).
Proof.
  split.
  - intros db job c Hc Hj Hne Hb. unfold Engine.preprocess_job.
    rewrite Hc, Hj. destruct job as [|kv job']; [contradiction|]. simpl.
    rewrite Hb. reflexivity.
  - intros Hf. destruct (run_step jid calls st Hf) as [Hsome Hnone]. split.
    + intros o Ho. destruct (Hsome o Ho) as [H1 H2].
      split; [exact H1|]. split; [exact H2|].
      intros db. apply preprocess_job_hit. exact H1.
    + destruct (Engine.job_context_cache st !! jid) as [o|] eqn:Hc.
      * destruct (Hsome o eq_refl) as [_ H2]. lia.
      * destruct (Hnone eq_refl) as [[_ H2] | [_ H2]]; lia.
Qed.

Lemma job_context_built_once_witness :
  let st1 := snd (Engine.preprocess_job sample_db 1 Engine.empty_engine) in
  let calls := [(sample_db, Engine.OpBatch [7]%Z 1%Z None);
                (empty_db, Engine.OpClear (Some 5%Z))] in
  Forall (fun c => evicts 1 (snd c) = false) calls /\
  Engine.job_context_cache st1 !! 1%Z = Some 0%nat /\
  Engine.job_context_cache (@Engine.run exact_model calls st1) !! 1%Z = Some 0%nat.
Proof.
  intros st1 calls.
  assert (Hf : Forall (fun c => evicts 1 (snd c) = false) calls)
    by (repeat constructor).
  assert (Hc : Engine.job_context_cache st1 !! 1%Z = Some 0%nat) by (vm_compute; reflexivity).
  split; [exact Hf|]. split; [exact Hc|].
  exact (proj1 (proj1 (proj2 (@job_context_built_once exact_model 1 calls st1) Hf) 0%nat Hc)).
Defined.

(** ** The job context is frozen except for its lazy index *)

Lemma set_vector_store_twice (c : JobContext) (v1 v2 : option vstore) :
  set_vector_store (set_vector_store c v1) v2 = set_vector_store c v2.
Proof. destruct c; reflexivity. Qed.

Lemma vector_store_set (c : JobContext) (v : option vstore) :
  vector_store (set_vector_store c v) = v.
Proof. destruct c; reflexivity. Qed.

Lemma set_vector_store_same (c : JobContext) : set_vector_store c (vector_store c) = c.
Proof. destruct c; reflexivity. Qed.

Lemma evolves_refl (c : JobContext) : evolves c c.
Proof. split; [symmetry; apply set_vector_store_same | auto]. Qed.

Lemma evolves_trans (c1 c2 c3 : JobContext) :
  evolves c1 c2 -> evolves c2 c3 -> evolves c1 c3.
Proof.
  intros [E1 M1] [E2 M2]. split.
  - transitivity (set_vector_store (set_vector_store c1 (vector_store c2)) (vector_store c3)).
    + rewrite <- E1. exact E2.
    + apply set_vector_store_twice.
  - intros v Hv. apply M2, M1, Hv.
Qed.

Lemma evolves_from_none (c : JobContext) (v : option vstore) :
  vector_store c = None -> evolves c (set_vector_store c v).
Proof.
  intros Hn. split.
  - now rewrite vector_store_set.
  - intros w Hw. congruence.
Qed.

Lemma se_evolves_ret {A} (a : A) : se_evolves (se_ret a).
Proof. intros c. apply evolves_refl. Qed.

Lemma se_evolves_lift {A} (r : result A) : se_evolves (se_lift r).
Proof. intros c. apply evolves_refl. Qed.

Lemma se_evolves_bind {A B} (m : SE JobContext A) (k : A -> SE JobContext B) :
  se_evolves m -> (forall a, se_evolves (k a)) -> se_evolves (se_bind m k).
Proof.
  intros Hm Hk c. rewrite se_bind_snd. specialize (Hm c).
  destruct (m c) as [[a|e] c1]; [|exact Hm].
  exact (evolves_trans _ _ _ Hm (Hk a c1)).
Qed.

Lemma se_evolves_get_bind {A} (k : JobContext -> SE JobContext A) :
  (forall c, se_evolves (k c)) -> se_evolves (se_bind se_get k).
Proof. intros Hk c. exact (Hk c c). Qed.

Lemma se_evolves_try {A} (m : SE JobContext A) (fb : A) :
  se_evolves m -> se_evolves (se_try m fb).
Proof.
  intros Hm c. unfold se_try. specialize (Hm c).
  destruct (m c) as [[a|e] c1]; exact Hm.
Qed.

Create HintDb evolves.
#[local] Hint Resolve se_evolves_ret se_evolves_lift se_evolves_bind
  se_evolves_get_bind se_evolves_try : evolves.

Lemma responsibility_similarity_evolves `{EmbeddingModel} (e : pydict) :
  se_evolves (Experience.responsibility_similarity e).
Proof.
  intros c. unfold Experience.responsibility_similarity.
  apply se_evolves_try.
  destruct (negb (truthy (dget e "responsibilities" (PList [])))); [apply se_evolves_ret|].
  apply se_evolves_bind; [apply se_evolves_lift|intros items].
  apply se_evolves_bind; [apply se_evolves_lift|intros text].
  clear c. intros c. unfold se_bind at 1, se_get.
  destruct (String.eqb (job_responsibilities_text c) ""); [apply evolves_refl|].
  rewrite se_bind_snd.
  destruct (vector_store c) as [v|] eqn:Hv.
  - (* the index is present: only read *)
    unfold se_ret. rewrite se_bind_snd.
    unfold se_get, se_lift. rewrite Hv.
    destruct (search_top1 v (PStr text)) as [[d|]|err]; simpl; apply evolves_refl.
  - (* the index is built: None, then an empty store, then filled *)
    unfold se_bind at 1, se_put, se_lift.
    destruct (add_texts [] [("Job requirements: " ++ job_responsibilities_text c)%string])
      as [vs|err]; simpl.
    + rewrite set_vector_store_twice, se_bind_snd. simpl.
      destruct (search_top1 vs (PStr text)) as [[d|]|err]; simpl;
        apply evolves_from_none; exact Hv.
    + apply evolves_from_none; exact Hv.
Qed.
#[local] Hint Resolve responsibility_similarity_evolves : evolves.

Lemma position_relevance_evolves `{EmbeddingModel} (e : pydict) :
  se_evolves (Experience.position_relevance e).
Proof. unfold Experience.position_relevance. eauto 10 with evolves. Qed.
#[local] Hint Resolve position_relevance_evolves : evolves.

Lemma sum_positions_evolves `{EmbeddingModel} (items : list pyval) (acc : Q) :
  se_evolves (Experience.sum_positions items acc).
Proof.
  revert acc. induction items as [|it items IH]; intros acc; simpl; [auto with evolves|].
  destruct it; auto with evolves.
Qed.
#[local] Hint Resolve sum_positions_evolves : evolves.

Lemma experience_calculate_evolves `{EmbeddingModel} (candidate : pydict) :
  se_evolves (Experience.calculate candidate).
Proof.
  unfold Experience.calculate, Experience.experience_relevance.
  apply se_evolves_get_bind. intros c.
  apply se_evolves_bind; [auto with evolves|intros y].
  apply se_evolves_bind; [|auto with evolves].
  destruct (negb (truthy (get_list candidate "experience"))); eauto 10 with evolves.
Qed.
#[local] Hint Resolve experience_calculate_evolves : evolves.

Lemma calculate_with_context_evolves `{EmbeddingModel} (db : Database) (cid : Z)
    (w : option weight_map) :
  se_evolves (calculate_similarity_with_context db cid w).
Proof.
  unfold calculate_similarity_with_context, all_metrics.
  destruct (get_candidate_by_id db cid) as [cand|]; [|auto with evolves].
  destruct (candidate_missing (Some cand)); eauto 10 with evolves.
Qed.

Lemma heap_evolves_refl (st : Engine.engine) : heap_evolves st st.
Proof. intros o c Hc. exists c. split; [exact Hc | apply evolves_refl]. Qed.

Lemma heap_evolves_trans (st1 st2 st3 : Engine.engine) :
  heap_evolves st1 st2 -> heap_evolves st2 st3 -> heap_evolves st1 st3.
Proof.
  intros H12 H23 o c Hc.
  destruct (H12 o c Hc) as (c2 & Hc2 & E2).
  destruct (H23 o c2 Hc2) as (c3 & Hc3 & E3).
  exists c3. split; [exact Hc3 | exact (evolves_trans _ _ _ E2 E3)].
Qed.

Lemma heap_wf_below (st : Engine.engine) (o : nat) (c : JobContext) :
  heap_wf st -> Engine.objects st !! o = Some c -> (o < Engine.next_object st)%nat.
Proof.
  intros Hwf Hc. destruct (Nat.lt_ge_cases o (Engine.next_object st)) as [Hlt|Hge];
    [exact Hlt|]. rewrite (Hwf o Hge) in Hc. discriminate.
Qed.

Lemma eng_evolves_ret {A} (a : A) : eng_evolves (se_ret a).
Proof. intros st Hwf. split; [exact Hwf | apply heap_evolves_refl]. Qed.

Lemma eng_evolves_bind {A B} (m : SE Engine.engine A) (k : A -> SE Engine.engine B) :
  eng_evolves m -> (forall a, eng_evolves (k a)) -> eng_evolves (se_bind m k).
Proof.
  intros Hm Hk st Hwf. rewrite se_bind_snd.
  destruct (Hm st Hwf) as [Hwf1 Hev1].
  destruct (m st) as [[a|e] st1]; [|split; assumption].
  destruct (Hk a st1 Hwf1) as [Hwf2 Hev2].
  split; [exact Hwf2 | exact (heap_evolves_trans _ _ _ Hev1 Hev2)].
Qed.

Lemma preprocess_job_evolves `{EmbeddingModel} (db : Database) (jid : Z) :
  eng_evolves (Engine.preprocess_job db jid).
Proof.
  intros st Hwf. unfold Engine.preprocess_job.
  destruct (Engine.job_context_cache st !! jid); [split; [exact Hwf | apply heap_evolves_refl]|].
  destruct (get_job db jid) as [j|]; [|split; [exact Hwf | apply heap_evolves_refl]].
  destruct (candidate_missing (Some j)); [split; [exact Hwf | apply heap_evolves_refl]|].
  destruct (build_job_context jid j) as [c|e]; [|split; [exact Hwf | apply heap_evolves_refl]].
  simpl. split.
  - intros o Ho. simpl in *. rewrite lookup_insert_ne by lia. apply Hwf. lia.
  - intros o c0 Hc0. exists c0. split; [|apply evolves_refl]. simpl.
    pose proof (heap_wf_below st o c0 Hwf Hc0).
    rewrite lookup_insert_ne by lia. exact Hc0.
Qed.

Lemma with_object_evolves {A} (o : nat) (m : SE JobContext A) :
  se_evolves m -> eng_evolves (Engine.with_object o m).
Proof.
  intros Hm st Hwf. unfold Engine.with_object.
  destruct (Engine.objects st !! o) as [c|] eqn:Ho;
    [|split; [exact Hwf | apply heap_evolves_refl]].
  pose proof (Hm c) as Hc. destruct (m c) as [r c'] eqn:Hmc. simpl in *.
  pose proof (heap_wf_below st o c Hwf Ho). split.
  - intros o' Ho'. simpl in *. rewrite lookup_insert_ne by lia. apply Hwf, Ho'.
  - intros o0 c0 Hc0. simpl. destruct (decide (o0 = o)) as [->|Hne].
    + rewrite lookup_insert_eq. exists c'. split; [reflexivity|congruence].
    + rewrite lookup_insert_ne by congruence. exists c0.
      split; [exact Hc0 | apply evolves_refl].
Qed.

Lemma score_all_evolves `{EmbeddingModel} (db : Database) (o : nat) (cids : list Z)
    (w : option weight_map) :
  eng_evolves (Engine.score_all db o cids w).
Proof.
  induction cids as [|cid cids IH]; simpl; [apply eng_evolves_ret|].
  apply eng_evolves_bind; [apply with_object_evolves, calculate_with_context_evolves|].
  intros s. apply eng_evolves_bind; [exact IH|intros; apply eng_evolves_ret].
Qed.

Lemma clear_cache_evolves (arg : option Z) : eng_evolves (Engine.clear_cache arg).
Proof.
  intros st Hwf. split.
  - intros o Ho. exact (Hwf o Ho).
  - intros o c Hc. exists c. split; [exact Hc | apply evolves_refl].
Qed.

Lemma exec_op_evolves `{EmbeddingModel} (db : Database) (o : Engine.op) :
  eng_evolves (Engine.exec_op db o).
Proof.
  destruct o; simpl; unfold Engine.calculate_similarity_batch, Engine.calculate_similarity.
  - apply eng_evolves_bind; [apply preprocess_job_evolves | intros; apply eng_evolves_ret].
  - apply eng_evolves_bind; [|intros; apply eng_evolves_ret].
    apply eng_evolves_bind; [apply preprocess_job_evolves | intros; apply score_all_evolves].
  - apply eng_evolves_bind; [|intros; apply eng_evolves_ret].
    apply eng_evolves_bind; [apply preprocess_job_evolves | intros].
    apply with_object_evolves, calculate_with_context_evolves.
  - apply clear_cache_evolves.
Qed.

Lemma run_evolves `{EmbeddingModel} (calls : list (Database * Engine.op)) (st : Engine.engine) :
  heap_wf st -> heap_wf (Engine.run calls st) /\ heap_evolves st (Engine.run calls st).
Proof.
  revert st. induction calls as [|[db o] calls IH]; intros st Hwf; simpl.
  - split; [exact Hwf | apply heap_evolves_refl].
  - destruct (exec_op_evolves db o st Hwf) as [Hwf1 Hev1].
    destruct (IH _ Hwf1) as [Hwf2 Hev2].
    split; [exact Hwf2 | exact (heap_evolves_trans _ _ _ Hev1 Hev2)].
Qed.

Lemma heap_wf_empty : heap_wf Engine.empty_engine.
Proof. intros o _. reflexivity. Qed.

Lemma result_bind_ok {A B} (m : result A) (f : A -> result B) (b : B) :
  (m ≫= f) = Ok b -> exists a, m = Ok a /\ f a = Ok b.
Proof. destruct m; simpl; [eauto | discriminate]. Qed.

Lemma build_job_context_no_index (jid : Z) (job : pydict) (c : JobContext) :
  build_job_context jid job = Ok c -> vector_store c = None.
Proof.
  unfold build_job_context. intros E.
  repeat (apply result_bind_ok in E; destruct E as (? & _ & E)).
  injection E as <-. reflexivity.
Qed.

(** C8: a job context is built without its index ([vector_store = None]);
    afterwards every call of the orchestrator on it, and every sequence of
    engine calls ([preprocess_job], single and batch scoring, [clear_cache])
    on the contexts already in the engine, leaves every field as it was
    except [vector_store], which may only go from [None] to present and,
    once present, keeps its value. (Inside one call the index is created
    empty and then filled; between calls it goes from absent to filled in
    one step.) *)
Theorem job_context_frozen_but_index `{EmbeddingModel} :
  (forall jid job c, build_job_context jid job = Ok c -> vector_store c = None) /\
  (forall db cid w, se_evolves (calculate_similarity_with_context db cid w)) /\
  (forall calls1 calls2 o c,
     Engine.objects (Engine.run calls1 Engine.empty_engine) !! o = Some c ->
     exists c', Engine.objects (Engine.run calls2 (Engine.run calls1 Engine.empty_engine)) !! o = Some c'
                /\ evolves c c').
Proof.
  split; [exact build_job_context_no_index|]. split.
  - intros db cid w. apply calculate_with_context_evolves.
  - intros calls1 calls2 o c Hc.
    destruct (run_evolves calls1 Engine.empty_engine heap_wf_empty) as [Hwf1 _].
    destruct (run_evolves calls2 _ Hwf1) as [_ Hev].
    exact (Hev o c Hc).
Qed.

Lemma job_context_frozen_but_index_witness :
  vector_store (mkJobContext 1%Z sample_job ["Python"%string] "Build APIs" [] [] [] 3%Z None
                  "Senior" "" None) = None /\
  exists c', Engine.objects
               (@Engine.run exact_model [(sample_db, Engine.OpBatch [7%Z] 1%Z None)]
                  (@Engine.run exact_model [(sample_db, Engine.OpPreprocess 1%Z)] Engine.empty_engine)) !! 0%nat
             = Some c'
           /\ evolves (mkJobContext 1%Z sample_job ["Python"%string] "Build APIs" [] [] [] 3%Z None
                         "Senior" "" None) c'.
Proof.
  split.
  - apply (proj1 (@job_context_frozen_but_index exact_model) 1%Z sample_job).
    vm_compute. reflexivity.
  - apply (proj2 (proj2 (@job_context_frozen_but_index exact_model))).
    vm_compute. reflexivity.
Defined.

(** ** Custom weight maps *)

Lemma wlookup_some (w : weight_map) (k : string) :
  wlookup w k <> None -> wlookup w k = Some (wval w k).
Proof. unfold wval. destruct (wlookup w k); congruence. Qed.

Lemma weighted_overall_missing_key (m : metric_scores) (w : weight_map) :
  (exists k, In k metric_keys /\ wlookup w k = None) ->
  weighted_overall m w = Raise KeyError.
Proof.
  intros (k & Hin & Hk). unfold weighted_overall, wget.
  simpl in Hin. repeat destruct Hin as [<-|Hin]; try contradiction; rewrite Hk;
    repeat match goal with |- context [wlookup w ?k'] => destruct (wlookup w k') end;
    reflexivity.
Qed.

Lemma weighted_overall_all_keys (m : metric_scores) (w : weight_map) :
  (forall k, In k metric_keys -> wlookup w k <> None) ->
  weighted_overall m w =
    if Qeq_bool (sum_values w) 0 then Raise ZeroDivisionError
    else Ok (weighted_sum m (wval w) / sum_values w).
Proof.
  intros Hall. unfold weighted_overall, wget.
  rewrite !wlookup_some by (apply Hall; simpl; tauto). reflexivity.
Qed.

Lemma calculate_with_context_overall `{EmbeddingModel} (db : Database) (cid : Z)
    (cand : pydict) (w : weight_map) (ctx ctx1 : JobContext) (m : metric_scores) :
  get_candidate_by_id db cid = Some cand -> candidate_missing (Some cand) = false ->
  all_metrics cand ctx = (Ok m, ctx1) ->
  fst (calculate_similarity_with_context db cid (Some w) ctx) =
    match weighted_overall m w with
    | Ok overall =>
        Ok (mkScore (round4 overall) (round4 m.(m_skills)) (round4 m.(m_experience))
              (round4 m.(m_education)) (round4 m.(m_semantic)) (round4 m.(m_seniority))
              (BDetail (round4 m.(m_certification)) w ctx1.(job_id) true))
    | Raise e => Raise e
    end.
Proof.
  intros Hc Hmiss Hm. unfold calculate_similarity_with_context.
  rewrite Hc, Hmiss. unfold se_bind at 1. rewrite Hm.
  unfold se_bind, se_lift. destruct (weighted_overall m w); reflexivity.
Qed.

(** C4 (counterexample): a weight map with only the [skills] key makes the
    scoring of an existing candidate raise [KeyError] (from
    [weights["experience"]]) instead of returning a self-normalised score. *)
Lemma partial_weights_key_error :
  fst (@calculate_similarity_with_context exact_model sample_db 7
         (Some [("skills"%string, 1)])
         (sample_context ["Python"%string] "Senior" 3 None)) = Raise KeyError.
Proof. vm_compute. reflexivity. Qed.

(** C4 (amended): for an existing candidate whose seven metrics are
    computed, a custom weight map [w] that lacks any of the seven keys
    makes the call raise [KeyError]; one that has all seven yields
    [overall_score = round(sum_k score_k * w[k] / sum(w.values()), 4)],
    where the denominator adds every value of [w], extra keys included,
    and a zero denominator raises [ZeroDivisionError]. *)
Theorem custom_weights_overall `{EmbeddingModel} (db : Database) (cid : Z)
    (cand : pydict) (w : weight_map) (ctx ctx1 : JobContext) (m : metric_scores) :
  get_candidate_by_id db cid = Some cand -> candidate_missing (Some cand) = false ->
  all_metrics cand ctx = (Ok m, ctx1) ->
  ((exists k, In k metric_keys /\ wlookup w k = None) ->
     fst (calculate_similarity_with_context db cid (Some w) ctx) = Raise KeyError) /\
  ((forall k, In k metric_keys -> wlookup w k <> None) ->
     sum_values w == 0 ->
     fst (calculate_similarity_with_context db cid (Some w) ctx) = Raise ZeroDivisionError) /\
  ((forall k, In k metric_keys -> wlookup w k <> None) ->
     ~ sum_values w == 0 ->
     exists s, fst (calculate_similarity_with_context db cid (Some w) ctx) = Ok s /\
               overall_score s = round4 (weighted_sum m (wval w) / sum_values w)).
Proof.
  intros Hc Hmiss Hm. rewrite (calculate_with_context_overall db cid cand w ctx ctx1 m Hc Hmiss Hm).
  split; [|split].
  - intros Hk. now rewrite weighted_overall_missing_key.
  - intros Hall Hz. rewrite weighted_overall_all_keys by exact Hall.
    apply Qeq_bool_iff in Hz. now rewrite Hz.
  - intros Hall Hz. rewrite weighted_overall_all_keys by exact Hall.
    destruct (Qeq_bool (sum_values w) 0) eqn:E.
    + apply Qeq_bool_iff in E. contradiction.
    + eexists. split; reflexivity.
Qed.

Lemma custom_weights_overall_witness :
  fst (@calculate_similarity_with_context exact_model sample_db 7
         (Some [("skills"%string, 1)])
         (sample_context ["Python"%string] "Senior" 3 None)) = Raise KeyError /\
  exists s,
    fst (@calculate_similarity_with_context exact_model sample_db 7
           (Some [("bonus", 2); ("skills", 1); ("experience", 1); ("education", 1);
                  ("semantic", 1); ("seniority", 1); ("language", 1);
                  ("certification", 1)]%string)
           (sample_context ["Python"%string] "Senior" 3 None)) = Ok s /\
    overall_score s =
      round4 (weighted_sum (mkMetrics (1#2) (616800#660000) 0.8 0.9 0.9 0.5 (5#7))
                (wval [("bonus", 2); ("skills", 1); ("experience", 1); ("education", 1);
                       ("semantic", 1); ("seniority", 1); ("language", 1);
                       ("certification", 1)]%string)
              / sum_values [("bonus", 2); ("skills", 1); ("experience", 1); ("education", 1);
                            ("semantic", 1); ("seniority", 1); ("language", 1);
                            ("certification", 1)]%string).
Proof.
  split.
  - apply (proj1 (@custom_weights_overall exact_model sample_db 7 sample_candidate
             [("skills"%string, 1)] (sample_context ["Python"%string] "Senior" 3 None)
             (set_vector_store (sample_context ["Python"%string] "Senior" 3 None)
                (Some ["Job requirements: Build APIs"%string]))
             (mkMetrics (1#2) (616800#660000) 0.8 0.9 0.9 0.5 (5#7))
             eq_refl eq_refl ltac:(vm_compute; reflexivity))).
    exists "experience"%string. split; [simpl; tauto | reflexivity].
  - apply (proj2 (proj2 (@custom_weights_overall exact_model sample_db 7 sample_candidate
             _ (sample_context ["Python"%string] "Senior" 3 None)
             (set_vector_store (sample_context ["Python"%string] "Senior" 3 None)
                (Some ["Job requirements: Build APIs"%string]))
             (mkMetrics (1#2) (616800#660000) 0.8 0.9 0.9 0.5 (5#7))
             eq_refl eq_refl ltac:(vm_compute; reflexivity)))).
    + intros k Hk. simpl in Hk. repeat destruct Hk as [<-|Hk]; try contradiction;
        vm_compute; discriminate.
    + vm_compute. discriminate.
Defined.

(** ** Every score lies in [0, 1] *)

Lemma Qle_bool_false (a b : Q) : Qle_bool a b = false -> b < a.
Proof.
  intros E. apply Qnot_le_lt. intros Hle. apply Qle_bool_iff in Hle. congruence.
Qed.

Lemma Qmax_ge_l (a b : Q) : a <= Qmax a b.
Proof.
  unfold Qmax. destruct (Qle_bool b a) eqn:E; [apply Qle_refl|].
  apply Qlt_le_weak, Qle_bool_false, E.
Qed.

Lemma Qmax_ge_r (a b : Q) : b <= Qmax a b.
Proof.
  unfold Qmax. destruct (Qle_bool b a) eqn:E; [apply Qle_bool_iff, E | apply Qle_refl].
Qed.

Lemma Qmax_le (a b c : Q) : a <= c -> b <= c -> Qmax a b <= c.
Proof. unfold Qmax. destruct (Qle_bool b a); auto. Qed.

Lemma Qmin_le_r (a b : Q) : Qmin a b <= b.
Proof.
  unfold Qmin. destruct (Qle_bool a b) eqn:E; [apply Qle_bool_iff, E | apply Qle_refl].
Qed.

Lemma Qmin_ge (a b c : Q) : c <= a -> c <= b -> c <= Qmin a b.
Proof. unfold Qmin. destruct (Qle_bool a b); auto. Qed.

Lemma in01_lit_0 : in01 0.
Proof. unfold in01. lra. Qed.
Lemma in01_lit_1 : in01 1.
Proof. unfold in01. lra. Qed.

Ltac in01_lit := unfold in01; split; lra.

Lemma in01_Qmin1 (x : Q) : 0 <= x -> in01 (Qmin x 1).
Proof. intros Hx. split; [apply Qmin_ge; lra | apply Qmin_le_r]. Qed.

Lemma in01_Qmax (a b : Q) : in01 a -> b <= 1 -> in01 (Qmax a b).
Proof.
  intros [Ha0 Ha1] Hb. split.
  - apply (Qle_trans _ a); [exact Ha0 | apply Qmax_ge_l].
  - apply Qmax_le; assumption.
Qed.

Lemma Q_of_nat_nonneg (n : nat) : 0 <= Q_of_nat n.
Proof. unfold Q_of_nat. change 0 with (inject_Z 0). rewrite <- Zle_Qle. lia. Qed.

Lemma Q_of_nat_S (n : nat) : Q_of_nat (S n) == Q_of_nat n + 1.
Proof. unfold Q_of_nat. rewrite Nat2Z.inj_succ, <- Z.add_1_r, inject_Z_plus. reflexivity. Qed.

Lemma Q_of_nat_le (n m : nat) : (n <= m)%nat -> Q_of_nat n <= Q_of_nat m.
Proof. intros H. unfold Q_of_nat. rewrite <- Zle_Qle. lia. Qed.

Lemma Qdiv_nonneg (a b : Q) : 0 <= a -> 0 <= b -> 0 <= a / b.
Proof. intros Ha Hb. unfold Qdiv. apply Qmult_le_0_compat; [exact Ha | apply Qinv_le_0_compat, Hb]. Qed.

Lemma Qdiv_le1 (a b : Q) : 0 < b -> a <= b -> a / b <= 1.
Proof. intros Hb Hab. apply Qle_shift_div_r; [exact Hb|]. lra. Qed.

Lemma frac_in01 (a b : Q) : 0 <= a -> 0 < b -> a <= b -> in01 (a / b).
Proof.
  intros Ha Hb Hab. split; [apply Qdiv_nonneg; lra | apply Qdiv_le1; assumption].
Qed.

Lemma Q_of_nat_max1_pos (n : nat) : 0 < Q_of_nat (Nat.max n 1).
Proof. unfold Q_of_nat. change 0 with (inject_Z 0). rewrite <- Zlt_Qlt. lia. Qed.

Lemma nat_frac_in01 (n d : nat) : (n <= d)%nat -> in01 (Q_of_nat n / Q_of_nat (Nat.max d 1)).
Proof.
  intros H. apply frac_in01; [apply Q_of_nat_nonneg | apply Q_of_nat_max1_pos |].
  apply Q_of_nat_le. lia.
Qed.

Lemma nat_div_nonneg (n d : nat) : 0 <= Q_of_nat n / Q_of_nat d.
Proof. apply Qdiv_nonneg; apply Q_of_nat_nonneg. Qed.

Lemma Z_frac_le1 (y d : Z) : (0 < d)%Z -> (y <= d)%Z -> Q_of_Z y / Q_of_Z d <= 1.
Proof.
  intros Hd Hy. apply Qdiv_le1.
  - unfold Q_of_Z. change 0 with (inject_Z 0). rewrite <- Zlt_Qlt. exact Hd.
  - unfold Q_of_Z. rewrite <- Zle_Qle. exact Hy.
Qed.

Lemma Z_decay_le1 (y m : Z) : (m <= y)%Z -> 1 - Q_of_Z (y - m) * 0.05 <= 1.
Proof.
  intros H. assert (0 <= Q_of_Z (y - m)).
  { unfold Q_of_Z. change 0 with (inject_Z 0). rewrite <- Zle_Qle. lia. }
  lra.
Qed.

Lemma filter_length_le' {A} (f : A -> bool) (l : list A) :
  (List.length (List.filter f l) <= List.length l)%nat.
Proof. induction l as [|a l IH]; simpl; [lia|]. destruct (f a); simpl; lia. Qed.

Lemma fold_left_inv {A B} (P : A -> Prop) (f : A -> B -> A) (l : list B) (acc : A) :
  P acc -> (forall a x, P a -> P (f a x)) -> P (List.fold_left f l acc).
Proof. revert acc. induction l as [|x l IH]; intros acc Hacc Hf; simpl; auto. Qed.

Lemma ratio_nonneg (a b : string) : 0 <= Difflib.ratio a b.
Proof.
  unfold Difflib.ratio. cbv zeta.
  destruct (Nat.eqb _ _); [lra|].
  apply Qdiv_nonneg; change 0 with (inject_Z 0); rewrite <- Zle_Qle; lia.
Qed.

Lemma score_of_distance_in01 (d : Q) : in01 (score_of_distance d).
Proof. unfold score_of_distance. apply in01_Qmin1, Qmax_ge_l. Qed.

Lemma round_half_even_bounds (y : Q) :
  0 <= y -> y <= 10000 -> (0 <= round_half_even y <= 10000)%Z.
Proof.
  intros H0 H1. unfold round_half_even. cbv zeta.
  pose proof (Qfloor_le y) as Hf. pose proof (Qlt_floor y) as Hf1.
  rewrite inject_Z_plus in Hf1.
  assert (Hlo : (0 <= Qfloor y)%Z).
  { assert (Hq : inject_Z (-1) < inject_Z (Qfloor y)).
    { change (inject_Z 1) with 1 in Hf1. change (inject_Z (-1)) with (-1). lra. }
    rewrite <- Zlt_Qlt in Hq. lia. }
  assert (Hhi : (Qfloor y <= 10000)%Z).
  { rewrite Zle_Qle. change (inject_Z 10000) with 10000. lra. }
  destruct (Qlt_bool (y - inject_Z (Qfloor y)) (1 # 2)) eqn:E1; [lia|].
  assert (Hr : 1 # 2 <= y - inject_Z (Qfloor y)).
  { unfold Qlt_bool in E1. apply negb_false_iff, Qle_bool_iff in E1. exact E1. }
  assert (Hlt : (Qfloor y < 10000)%Z).
  { rewrite Zlt_Qlt. change (inject_Z 10000) with 10000. lra. }
  destruct (Qlt_bool (1 # 2) _); [lia|]. destruct (Z.even _); lia.
Qed.

Lemma round4_in01 (x : Q) : in01 x -> in01 (round4 x).
Proof.
  intros [H0 H1]. unfold round4.
  destruct (round_half_even_bounds (x * 10000)) as [Hlo Hhi]; [lra | lra |].
  apply frac_in01.
  - change 0 with (inject_Z 0). rewrite <- Zle_Qle. exact Hlo.
  - lra.
  - change 10000 with (inject_Z 10000). rewrite <- Zle_Qle. exact Hhi.
Qed.

Lemma try_except_in01 (r : result Q) (fb : Q) :
  (forall v, r = Ok v -> in01 v) -> in01 fb -> in01 (try_except r fb).
Proof. intros Hr Hfb. unfold try_except. destruct r as [v|e]; auto. Qed.

Ltac ok_inv H :=
  repeat (apply result_bind_ok in H; destruct H as (? & ? & H)).

Lemma skills_in01 (candidate : pydict) (ctx : JobContext) :
  in01 (Skills.calculate candidate ctx).
Proof.
  unfold Skills.calculate. apply try_except_in01; [|in01_lit].
  intros v Hv. ok_inv Hv.
  destruct (required_skills ctx); [injection Hv as <-; in01_lit|].
  destruct x; [injection Hv as <-; in01_lit|].
  destruct (Nat.eqb _ 0); injection Hv as <-; [in01_lit|].
  apply in01_Qmin1, nat_div_nonneg.
Qed.

Lemma certification_in01 (candidate : pydict) (ctx : JobContext) :
  in01 (Certification.calculate candidate ctx).
Proof.
  unfold Certification.calculate. apply try_except_in01; [|in01_lit].
  intros v Hv. ok_inv Hv.
  destruct (required_certifications ctx); [injection Hv as <-; in01_lit|].
  destruct x; injection Hv as <-; [in01_lit|].
  apply in01_Qmin1, nat_div_nonneg.
Qed.

Lemma education_in01 (candidate : pydict) (ctx : JobContext) :
  in01 (Education.calculate candidate ctx).
Proof.
  unfold Education.calculate. apply try_except_in01; [|in01_lit].
  intros v Hv.
  destruct (education_requirements ctx) as [|r rs]; [injection Hv as <-; in01_lit|].
  destruct (negb _); [injection Hv as <-; in01_lit|].
  set (reqs := r :: rs) in Hv. clearbody reqs.
  ok_inv Hv. injection Hv as <-.
  apply nat_frac_in01, filter_length_le'.
Qed.

Lemma single_language_match_nonneg (r : string * string) (cands : list (string * string)) :
  0 <= Language.single_language_match r cands.
Proof.
  destruct r as [rn rl]. unfold Language.single_language_match.
  apply fold_left_inv; [lra|]. intros best [cn cp] Hb.
  destruct (Qle_bool 0.8 _); [|exact Hb].
  apply (Qle_trans _ best); [exact Hb | apply Qmax_ge_l].
Qed.

Lemma language_in01 (candidate : pydict) (ctx : JobContext) :
  in01 (Language.calculate candidate ctx).
Proof.
  unfold Language.calculate. apply try_except_in01; [|in01_lit].
  intros v Hv. ok_inv Hv.
  destruct (required_languages ctx) as [|rq rqs]; [injection Hv as <-; in01_lit|].
  destruct x as [|c cs]; injection Hv as <-; [in01_lit|].
  apply in01_Qmin1, Qdiv_nonneg; [|apply Q_of_nat_nonneg].
  apply fold_left_inv.
  - pose proof (single_language_match_nonneg rq (c :: cs)). lra.
  - intros acc r Hacc. pose proof (single_language_match_nonneg r (c :: cs)). lra.
Qed.

Lemma semantic_in01 `{EmbeddingModel} (candidate : pydict) (ctx : JobContext) :
  in01 (Semantic.calculate candidate ctx).
Proof.
  unfold Semantic.calculate. apply try_except_in01; [|in01_lit].
  intros v Hv. destruct (_ || _); [injection Hv as <-; in01_lit|].
  ok_inv Hv. destruct x0; injection Hv as <-; [apply score_of_distance_in01 | in01_lit].
Qed.

Lemma band_score_in01 (mn mx y : Z) : in01 (Seniority.band_score mn mx y).
Proof.
  unfold Seniority.band_score.
  destruct ((mn <=? y)%Z && (y <=? mx)%Z) eqn:E; [in01_lit|].
  apply andb_false_iff in E.
  destruct (y <? mn)%Z eqn:E2.
  - apply in01_Qmax; [in01_lit|]. apply Z_frac_le1; lia.
  - apply in01_Qmax; [in01_lit|]. apply Z_decay_le1.
    destruct E as [E|E]; apply Z.leb_gt in E || apply Z.leb_nle in E; lia.
Qed.

Lemma seniority_in01 (candidate : pydict) (ctx : JobContext) :
  in01 (Seniority.calculate candidate ctx).
Proof.
  unfold Seniority.calculate. apply try_except_in01; [|in01_lit].
  intros v Hv. destruct (Seniority.seniority_ranges _) as [[mn mx]|].
  - ok_inv Hv. injection Hv as <-. apply band_score_in01.
  - destruct (0 <? min_years_experience ctx)%Z eqn:E; [|injection Hv as <-; in01_lit].
    ok_inv Hv. destruct (min_years_experience ctx <=? x)%Z eqn:E2;
      injection Hv as <-; [in01_lit|].
    apply in01_Qmax; [in01_lit|]. apply Z_frac_le1; lia.
Qed.

Lemma years_score_in01 `{EmbeddingModel} (y mn : Z) (mx : option Z) :
  in01 (Experience.years_score y mn mx).
Proof.
  unfold Experience.years_score.
  destruct (mn <=? y)%Z eqn:E.
  - destruct mx as [m|]; [|in01_lit].
    destruct (negb (m =? 0)%Z); [|in01_lit].
    destruct (y <=? m)%Z eqn:E2; [in01_lit|].
    apply in01_Qmax; [in01_lit|]. apply Z_decay_le1. lia.
  - apply in01_Qmax; [in01_lit|]. apply Z_frac_le1; lia.
Qed.

Lemma se_post_ret {A} (P : A -> Prop) (a : A) : P a -> se_post P (se_ret a).
Proof. intros Ha c v c' E. injection E as <- _. exact Ha. Qed.

Lemma se_post_lift {A} (P : A -> Prop) (r : result A) :
  (forall v, r = Ok v -> P v) -> se_post P (se_lift r).
Proof. intros Hr c v c' E. injection E as E _. apply Hr, E. Qed.

Lemma se_post_true {A} (m : SE JobContext A) : se_post (fun _ => True) m.
Proof. intros c v c' _. exact I. Qed.

Lemma se_post_bind {A B} (Q' : A -> Prop) (P : B -> Prop) (m : SE JobContext A)
    (k : A -> SE JobContext B) :
  se_post Q' m -> (forall a, Q' a -> se_post P (k a)) -> se_post P (se_bind m k).
Proof.
  intros Hm Hk c v c' E. unfold se_bind in E.
  destruct (m c) as [[a|e] c1] eqn:Em; [|discriminate].
  exact (Hk a (Hm c a c1 Em) c1 v c' E).
Qed.

Lemma se_post_bind_any {A B} (P : B -> Prop) (m : SE JobContext A)
    (k : A -> SE JobContext B) :
  (forall a, se_post P (k a)) -> se_post P (se_bind m k).
Proof. intros Hk. apply (se_post_bind (fun _ => True)); [apply se_post_true | auto]. Qed.

Lemma se_post_try {A} (P : A -> Prop) (m : SE JobContext A) (fb : A) :
  se_post P m -> P fb -> se_post P (se_try m fb).
Proof.
  intros Hm Hfb c v c' E. unfold se_try in E.
  destruct (m c) as [[a|e] c1] eqn:Em; injection E as <- _; [exact (Hm c a c1 Em) | exact Hfb].
Qed.

Lemma se_post_weaken {A} (P P' : A -> Prop) (m : SE JobContext A) :
  (forall v, P v -> P' v) -> se_post P m -> se_post P' m.
Proof. intros HP Hm c v c' E. apply HP, (Hm c v c' E). Qed.

Lemma responsibility_similarity_in01 `{EmbeddingModel} (e : pydict) :
  se_post in01 (Experience.responsibility_similarity e).
Proof.
  unfold Experience.responsibility_similarity.
  apply se_post_try; [|in01_lit].
  destruct (negb _); [apply se_post_ret; in01_lit|].
  apply se_post_bind_any; intros items.
  apply se_post_bind_any; intros text.
  apply se_post_bind_any; intros ctx.
  destruct (String.eqb _ _); [apply se_post_ret; in01_lit|].
  apply se_post_bind_any; intros [].
  apply se_post_bind_any; intros ctx2.
  apply se_post_bind_any; intros [d|].
  - apply se_post_ret, score_of_distance_in01.
  - apply se_post_ret; in01_lit.
Qed.

Lemma position_relevance_in01 `{EmbeddingModel} (e : pydict) :
  se_post in01 (Experience.position_relevance e).
Proof.
  unfold Experience.position_relevance.
  apply se_post_bind_any; intros exp_title.
  apply se_post_bind_any; intros ctx.
  apply se_post_bind_any; intros job_title.
  apply (se_post_bind in01); [apply responsibility_similarity_in01|].
  intros r Hr. apply se_post_ret, in01_Qmin1.
  destruct Hr as [Hr0 _].
  match goal with |- 0 <= ?t * 0.6 + _ => assert (0 <= t) end.
  { destruct (_ && _); [apply ratio_nonneg | lra]. }
  lra.
Qed.

Lemma sum_positions_bounds `{EmbeddingModel} (items : list pyval) (acc : Q) :
  se_post (fun r => acc <= r <= acc + Q_of_nat (count_dicts items))
    (Experience.sum_positions items acc).
Proof.
  revert acc. induction items as [|it items IH]; intros acc; simpl.
  - apply se_post_ret. change (Q_of_nat 0) with 0. split; lra.
  - destruct it; try (apply (se_post_weaken _ _ _ (fun v Hv => Hv) (IH acc))).
    apply (se_post_bind in01); [apply position_relevance_in01|].
    intros r [Hr0 Hr1].
    refine (se_post_weaken _ _ _ _ (IH (acc + r))).
    intros v Hv. rewrite Q_of_nat_S. split; lra.
Qed.

Lemma count_dicts_le_length (xs : list pyval) : (count_dicts xs <= List.length xs)%nat.
Proof. induction xs as [|x xs IH]; simpl; [lia|]. destruct x; simpl; lia. Qed.

Lemma count_dicts_chars (s : string) : count_dicts (chars s) = 0%nat.
Proof. unfold chars. induction (list_ascii_of_string s); simpl; auto. Qed.

Lemma count_dicts_keys (kvs : pydict) :
  count_dicts (List.map (fun kv => PStr (fst kv)) kvs) = 0%nat.
Proof. induction kvs; simpl; auto. Qed.

Lemma count_dicts_iter_len (v : pyval) (n : nat) (items : list pyval) :
  py_len v = Ok n -> py_iter v = Ok items -> (count_dicts items <= n)%nat.
Proof.
  destruct v; simpl; intros E1 E2; try discriminate;
    injection E1 as <-; injection E2 as <-.
  - rewrite count_dicts_chars. lia.
  - apply count_dicts_le_length.
  - rewrite count_dicts_keys. lia.
Qed.

Lemma experience_relevance_in01 `{EmbeddingModel} (candidate : pydict) :
  se_post in01 (Experience.experience_relevance candidate).
Proof.
  unfold Experience.experience_relevance.
  destruct (negb _); [apply se_post_ret; in01_lit|].
  apply (se_post_bind (fun n => py_len (get_list candidate "experience") = Ok n));
    [apply se_post_lift; auto|intros n Hn].
  apply (se_post_bind (fun items => py_iter (get_list candidate "experience") = Ok items));
    [apply se_post_lift; auto|intros items Hi].
  apply (se_post_bind _ _ _ _ (sum_positions_bounds items 0)). intros r Hr.
  apply se_post_ret. pose proof (count_dicts_iter_len _ _ _ Hn Hi) as Hc.
  apply Q_of_nat_le in Hc. pose proof (Q_of_nat_le n (Nat.max n 1) ltac:(lia)).
  apply frac_in01; [lra | apply Q_of_nat_max1_pos | lra].
Qed.

Lemma experience_in01 `{EmbeddingModel} (candidate : pydict) :
  se_post in01 (Experience.calculate candidate).
Proof.
  unfold Experience.calculate.
  apply se_post_bind_any; intros ctx.
  apply se_post_bind_any; intros y.
  apply (se_post_bind in01); [apply experience_relevance_in01|].
  intros r Hr. apply se_post_ret.
  pose proof (years_score_in01 y (min_years_experience ctx) (max_years_experience ctx)) as Hy.
  unfold in01 in *. split; lra.
Qed.

Lemma all_metrics_in01 `{EmbeddingModel} (candidate : pydict) :
  se_post metrics_in01 (all_metrics candidate).
Proof.
  unfold all_metrics.
  apply se_post_bind_any; intros ctx.
  apply (se_post_bind in01); [apply experience_in01|]. intros x Hx.
  apply se_post_bind_any; intros ctx'.
  apply se_post_ret. unfold metrics_in01; simpl.
  repeat split; try apply Hx;
    first [apply skills_in01 | apply education_in01 | apply language_in01
          | apply certification_in01 | apply semantic_in01 | apply seniority_in01].
Qed.

Lemma default_weights_all_keys (k : string) :
  In k metric_keys -> wlookup default_weights k <> None.
Proof. intros Hk. simpl in Hk. repeat destruct Hk as [<-|Hk]; try contradiction; discriminate. Qed.

Lemma weighted_overall_default_in01 (m : metric_scores) (v : Q) :
  metrics_in01 m -> weighted_overall m default_weights = Ok v -> in01 v.
Proof.
  intros (Hs & He & Hd & Hl & Hc & Hm & Hn).
  rewrite weighted_overall_all_keys by apply default_weights_all_keys.
  replace (Qeq_bool (sum_values default_weights) 0) with false by reflexivity.
  intros E. injection E as <-.
  assert (Hsum : sum_values default_weights == 82 # 100) by reflexivity.
  assert (Ew : weighted_sum m (wval default_weights) =
               m_skills m * 0.30 + m_experience m * 0.25 + m_education m * 0.15
               + m_semantic m * 0.05 + m_seniority m * 0.02 + m_language m * 0.03
               + m_certification m * 0.02) by reflexivity.
  rewrite Ew. unfold in01 in *.
  apply frac_in01; lra.
Qed.

Lemma create_empty_score_in01 : score_in01 create_empty_score.
Proof. unfold score_in01; simpl. repeat split; try exact I; lra. Qed.

Lemma calculate_with_context_in01 `{EmbeddingModel} (db : Database) (cid : Z) :
  se_post score_in01 (calculate_similarity_with_context db cid None).
Proof.
  unfold calculate_similarity_with_context.
  destruct (get_candidate_by_id db cid) as [cand|];
    [|apply se_post_ret, create_empty_score_in01].
  destruct (candidate_missing _); [apply se_post_ret, create_empty_score_in01|].
  apply (se_post_bind metrics_in01); [apply all_metrics_in01|]. intros m Hm.
  apply (se_post_bind in01);
    [apply se_post_lift; intros v; apply weighted_overall_default_in01, Hm|].
  intros ov Hov. apply se_post_bind_any. intros ctx. apply se_post_ret.
  destruct Hm as (Hs & He & Hd & Hl & Hc & Hsem & Hn).
  unfold score_in01; simpl. repeat split; apply round4_in01; assumption.
Qed.

(** C1: under the default weights, whenever the orchestrator returns a
    score for a candidate against a job context (it returns the empty
    score for a missing candidate), the overall score, the five metric
    fields and the certification score of the breakdown all lie in
    [0, 1]; and the seven metric values it computes (language included,
    which is computed but not returned) lie in [0, 1] before rounding.
    The statement is about calls that return: a metric that raises
    makes the whole call raise. *)
Theorem scores_in_unit_interval `{EmbeddingModel} :
  (forall candidate ctx m ctx',
     all_metrics candidate ctx = (Ok m, ctx') -> metrics_in01 m) /\
  (forall db cid ctx s ctx',
     calculate_similarity_with_context db cid None ctx = (Ok s, ctx') -> score_in01 s).
Proof.
  split.
  - intros candidate ctx m ctx' E. exact (all_metrics_in01 candidate ctx m ctx' E).
  - intros db cid ctx s ctx' E. exact (calculate_with_context_in01 db cid ctx s ctx' E).
Qed.

Lemma scores_in_unit_interval_witness :
  metrics_in01 (mkMetrics (1#2) (616800#660000) 0.8 0.9 0.9 0.5 (5#7)) /\
  score_in01 (mkScore 0.7170 0.5000 0.9345 0.8000 0.5000 0.7143
                (BDetail 0.9000 default_weights 1%Z true)).
Proof.
  split.
  - apply (proj1 (@scores_in_unit_interval exact_model) sample_candidate
             (sample_context ["Python"%string] "Senior" 3 None) _
             (set_vector_store (sample_context ["Python"%string] "Senior" 3 None)
                (Some ["Job requirements: Build APIs"%string]))).
    vm_compute. reflexivity.
  - apply (proj2 (@scores_in_unit_interval exact_model) sample_db 7%Z
             (sample_context ["Python"%string] "Senior" 3 None) _
             (set_vector_store (sample_context ["Python"%string] "Senior" 3 None)
                (Some ["Job requirements: Build APIs"%string]))).
    vm_compute. reflexivity.
Defined.

(* ================================================================== *)
(** * Further properties of the code *)

(** ** [difflib] ratio bounds *)

Section DifflibBounds.
Variables (a b : list ascii) (alo ahi blo bhi : nat).

Lemma assoc_get_bound (r : nat) (m : list (nat * nat)) (j : nat) :
  j2len_ok alo blo r m ->
  Difflib.assoc_get m j = 0%nat \/
  (Difflib.assoc_get m j + blo <= j + 1 /\ Difflib.assoc_get m j + alo <= r)%nat.
Proof.
  induction m as [|[j' k] m IH]; intros Hm; simpl; [auto|].
  destruct (Nat.eqb_spec j j') as [->|_].
  - right. apply Hm. left. reflexivity.
  - apply IH. intros j0 k0 Hin. apply Hm. right. exact Hin.
Qed.

Lemma scan_row_ok (i : nat) (m : list (nat * nat)) (js : list nat)
    (acc : list (nat * nat)) (best : Difflib.block) :
  (alo <= i < ahi)%nat -> j2len_ok alo blo i m -> j2len_ok alo blo (S i) acc -> block_ok alo ahi blo bhi best ->
  j2len_ok alo blo (S i) (fst (Difflib.scan_row i blo bhi m js acc best)) /\
  block_ok alo ahi blo bhi (snd (Difflib.scan_row i blo bhi m js acc best)).
Proof.
  intros Hi Hm. revert acc best.
  induction js as [|j js IH]; intros acc best Hacc Hbest; simpl; [auto|].
  destruct (Nat.ltb_spec j blo) as [Hlt|Hge]; [apply IH; assumption|].
  destruct (Nat.leb_spec bhi j) as [Hle|Hbj]; [simpl; auto|].
  set (k := (match j with O => O | S jm => Difflib.assoc_get m jm end + 1)%nat).
  assert (Hk : (k + blo <= j + 1 /\ k + alo <= S i /\ 1 <= k)%nat).
  { unfold k. destruct j as [|jm].
    - lia.
    - destruct (assoc_get_bound i m jm Hm) as [E|[E1 E2]]; [rewrite E|]; lia. }
  destruct best as [[bi bj] bs].
  apply IH.
  - intros j0 k0 [E|Hin]; [injection E as <- <-; lia | apply Hacc, Hin].
  - destruct (Nat.ltb_spec bs k); [simpl; lia | exact Hbest].
Qed.

Lemma scan_rows_ok (n s : nat) (m : list (nat * nat)) (best : Difflib.block) :
  (alo <= s)%nat -> (s + n <= ahi)%nat -> j2len_ok alo blo s m -> block_ok alo ahi blo bhi best ->
  block_ok alo ahi blo bhi (Difflib.scan_rows a b blo bhi (List.seq s n) m best).
Proof.
  revert s m best. induction n as [|n IH]; intros s m best Hs Hn Hm Hb; simpl; [exact Hb|].
  destruct (scan_row_ok s m (Difflib.b2j b (Difflib.ch a s)) [] best ltac:(lia) Hm
              ltac:(intros j k []) Hb) as [H1 H2].
  destruct (Difflib.scan_row s blo bhi m _ [] best) as [m' best'] eqn:E. simpl in H1, H2.
  apply IH; [lia | lia | exact H1 | exact H2].
Qed.

Lemma extend_back_ok (fuel : nat) (x : Difflib.block) :
  block_ok alo ahi blo bhi x -> block_ok alo ahi blo bhi (Difflib.extend_back a b alo blo fuel x).
Proof.
  revert x. induction fuel as [|fuel IH]; intros [[bi bj] bs] Hx; simpl; [exact Hx|].
  destruct ((alo <? bi)%nat && (blo <? bj)%nat && _) eqn:E; [|exact Hx].
  apply andb_true_iff in E as [E _]. apply andb_true_iff in E as [E1 E2].
  apply Nat.ltb_lt in E1, E2. apply IH. simpl in *. lia.
Qed.

Lemma extend_fwd_ok (fuel : nat) (x : Difflib.block) :
  block_ok alo ahi blo bhi x -> block_ok alo ahi blo bhi (Difflib.extend_fwd a b ahi bhi fuel x).
Proof.
  revert x. induction fuel as [|fuel IH]; intros [[bi bj] bs] Hx; simpl; [exact Hx|].
  destruct ((bi + bs <? ahi)%nat && (bj + bs <? bhi)%nat && _) eqn:E; [|exact Hx].
  apply andb_true_iff in E as [E _]. apply andb_true_iff in E as [E1 E2].
  apply Nat.ltb_lt in E1, E2. apply IH. simpl in *. lia.
Qed.

Lemma find_longest_match_ok :
  (alo <= ahi)%nat -> (blo <= bhi)%nat ->
  block_ok alo ahi blo bhi (Difflib.find_longest_match a b alo ahi blo bhi).
Proof.
  intros Ha Hb. unfold Difflib.find_longest_match.
  apply extend_fwd_ok, extend_back_ok, scan_rows_ok; [lia | lia | intros j k [] |].
  simpl. lia.
Qed.

End DifflibBounds.

Lemma matches_bound (a b : list ascii) (fuel alo ahi blo bhi : nat) :
  (alo <= ahi)%nat -> (blo <= bhi)%nat ->
  (Difflib.matches a b fuel alo ahi blo bhi <= ahi - alo /\
   Difflib.matches a b fuel alo ahi blo bhi <= bhi - blo)%nat.
Proof.
  revert alo ahi blo bhi. induction fuel as [|fuel IH]; intros alo ahi blo bhi Ha Hb;
    simpl; [lia|].
  pose proof (find_longest_match_ok a b alo ahi blo bhi Ha Hb) as Hx.
  destruct (Difflib.find_longest_match a b alo ahi blo bhi) as [[i j] k]. simpl in Hx.
  destruct (Nat.eqb k 0); [lia|].
  destruct ((alo <? i)%nat && (blo <? j)%nat);
    [destruct (IH alo i blo j ltac:(lia) ltac:(lia)) | ];
  (destruct ((i + k <? ahi)%nat && (j + k <? bhi)%nat);
    [destruct (IH (i + k)%nat ahi (j + k)%nat bhi ltac:(lia) ltac:(lia)) | ]); lia.
Qed.

Lemma ratio_le1 (sa sb : string) : Difflib.ratio sa sb <= 1.
Proof.
  unfold Difflib.ratio. cbv zeta.
  set (a := list_ascii_of_string sa). set (b := list_ascii_of_string sb).
  destruct (matches_bound a b (S (List.length a)) 0 (List.length a) 0 (List.length b))
    as [H1 H2]; [lia | lia |].
  destruct (Nat.eqb_spec (List.length a + List.length b) 0) as [E|E]; [lra|].
  apply Qdiv_le1.
  - change 0 with (inject_Z 0). rewrite <- Zlt_Qlt. lia.
  - rewrite <- Zle_Qle. lia.
Qed.

(** [difflib.SequenceMatcher(None, a, b).ratio()], as the metrics call it,
    lies in [0, 1]; it is 1 for two empty strings and 0 when exactly one
    of the two is empty. *)
Theorem ratio_bounds (sa sb : string) :
  in01 (Difflib.ratio sa sb) /\
  (sa = ""%string -> sb = ""%string -> Difflib.ratio sa sb = 1) /\
  ((sa = ""%string \/ sb = ""%string) -> (sa <> ""%string \/ sb <> ""%string) ->
   Difflib.ratio sa sb == 0).
Proof.
  split; [split; [apply ratio_nonneg | apply ratio_le1]|]. split.
  - intros -> ->. reflexivity.
  - intros Hempty Hne. unfold Difflib.ratio. cbv zeta.
    set (a := list_ascii_of_string sa). set (b := list_ascii_of_string sb).
    destruct (matches_bound a b (S (List.length a)) 0 (List.length a) 0 (List.length b))
      as [H1 H2]; [lia | lia |].
    assert (Hm : Difflib.matches a b (S (List.length a)) 0 (List.length a) 0 (List.length b) = 0%nat).
    { destruct Hempty as [->| ->]; [subst a | subst b]; simpl in *; lia. }
    assert (Hl : (List.length a + List.length b <> 0)%nat).
    { destruct Hne as [Hne|Hne]; intros Hz;
        [apply Hne; subst a | apply Hne; subst b];
        [destruct sa | destruct sb]; simpl in *; [reflexivity|lia|reflexivity|lia]. }
    apply Nat.eqb_neq in Hl. rewrite Hl, Hm. reflexivity.
Qed.

Lemma ratio_bounds_witness :
  Difflib.ratio "" "Java" == 0 /\ Difflib.ratio "" "" = 1.
Proof.
  split.
  - apply (proj2 (proj2 (ratio_bounds "" "Java"))); [left; reflexivity | right; discriminate].
  - apply (proj1 (proj2 (ratio_bounds "" ""))); reflexivity.
Defined.

(** ** Skills *)

Lemma set_add_spec (x : string) (s : list string) :
  List.NoDup s -> List.NoDup (Skills.set_add x s) /\ (forall y, In y (Skills.set_add x s) <-> In y s \/ y = x).
Proof.
  intros Hs. unfold Skills.set_add. destruct (in_dec string_dec x s) as [Hin|Hnin].
  - split; [exact Hs|]. intros y. split; [auto|]. intros [H| ->]; auto.
  - split.
    + apply List.NoDup_app; [exact Hs | constructor; [auto | constructor] |].
      intros y Hy [<-|[]]. contradiction.
    + intros y. split; intros H.
      * apply in_app_or in H. simpl in H. intuition.
      * apply in_or_app. simpl. intuition.
Qed.

Lemma fuzzy_match_fold (thr : Q) (cs req : list string) (acc : list string) :
  List.NoDup acc ->
  List.NoDup (List.fold_left (fun matched r =>
      if in_dec string_dec r cs then Skills.set_add r matched
      else if existsb (fun c => Qle_bool thr (Difflib.ratio r c)) cs
      then Skills.set_add r matched
      else matched) req acc) /\
  (forall x, In x (List.fold_left (fun matched r =>
      if in_dec string_dec r cs then Skills.set_add r matched
      else if existsb (fun c => Qle_bool thr (Difflib.ratio r c)) cs
      then Skills.set_add r matched
      else matched) req acc) <->
   In x acc \/ (In x req /\ skill_matched thr cs x = true)).
Proof.
  revert acc. induction req as [|r req IH]; intros acc Hacc; simpl.
  - split; [exact Hacc|]. intros x. intuition.
  - assert (Hstep : List.NoDup (if in_dec string_dec r cs then Skills.set_add r acc
                           else if existsb (fun c => Qle_bool thr (Difflib.ratio r c)) cs
                           then Skills.set_add r acc else acc) /\
                    forall y, In y (if in_dec string_dec r cs then Skills.set_add r acc
                                    else if existsb (fun c => Qle_bool thr (Difflib.ratio r c)) cs
                                    then Skills.set_add r acc else acc)
                              <-> In y acc \/ (y = r /\ skill_matched thr cs r = true)).
    { unfold skill_matched. destruct (set_add_spec r acc Hacc) as [Hn Hi].
      destruct (in_dec string_dec r cs); [|destruct (existsb _ cs)].
      - split; [exact Hn|]. intros y. rewrite Hi. intuition.
      - split; [exact Hn|]. intros y. rewrite Hi. intuition.
      - split; [exact Hacc|]. intros y. intuition discriminate. }
    destruct Hstep as [Hn Hi]. destruct (IH _ Hn) as [Hn' Hi'].
    split; [exact Hn'|]. intros x. rewrite Hi', Hi.
    split.
    + intros [[H|[-> H]]|[H1 H2]]; auto.
    + intros [H|[[<-|H1] H2]]; auto.
Qed.

Lemma fuzzy_match_skills_spec (thr : Q) (cs req : list string) :
  List.NoDup (Skills.fuzzy_match_skills thr cs req) /\
  (forall x, In x (Skills.fuzzy_match_skills thr cs req) <->
             In x req /\ skill_matched thr cs x = true).
Proof.
  unfold Skills.fuzzy_match_skills.
  destruct (fuzzy_match_fold thr cs req [] (List.NoDup_nil _)) as [Hn Hi].
  split; [exact Hn|]. intros x. rewrite Hi. simpl. intuition.
Qed.

(** [SkillsSimilarityMetric]: [_fuzzy_match_skills] returns, without
    repetition, exactly the required skills that the candidate lists
    verbatim or that reach a [SequenceMatcher] ratio of at least 0.6
    against some candidate skill. When both lists are non-empty,
    [calculate] returns [len(matched) / len(set(candidate) | set(required))]:
    the [min(..., 1.0)] never takes effect. *)
Theorem skills_jaccard (candidate : pydict) (ctx : JobContext)
    (cs : list string) :
  (List.NoDup (Skills.fuzzy_match_skills Skills.threshold cs (required_skills ctx)) /\
   forall x, In x (Skills.fuzzy_match_skills Skills.threshold cs (required_skills ctx)) <->
             In x (required_skills ctx) /\ skill_matched Skills.threshold cs x = true) /\
  (Skills.extract_candidate_skills candidate = Ok cs -> cs <> [] -> required_skills ctx <> [] ->
   Skills.calculate candidate ctx =
     Q_of_nat (List.length (Skills.fuzzy_match_skills Skills.threshold cs (required_skills ctx)))
     / Q_of_nat (List.length (py_set (cs ++ required_skills ctx)))).
Proof.
  split; [apply fuzzy_match_skills_spec|].
  intros Hx Hcs Hreq. unfold Skills.calculate. rewrite Hx. simpl.
  destruct (fuzzy_match_skills_spec Skills.threshold cs (required_skills ctx)) as [Hn Hi].
  set (matched := Skills.fuzzy_match_skills Skills.threshold cs (required_skills ctx)) in *.
  assert (Hle : (List.length matched <= List.length (py_set (cs ++ required_skills ctx)))%nat).
  { apply List.NoDup_incl_length; [exact Hn|]. intros x Hx'. unfold py_set.
    apply nodup_In, in_app_iff. right. apply Hi, Hx'. }
  assert (Hpos : (0 < List.length (py_set (cs ++ required_skills ctx)))%nat).
  { destruct (required_skills ctx) as [|r rs] eqn:E; [contradiction|].
    assert (In r (py_set (cs ++ r :: rs))) by (apply nodup_In, in_app_iff; simpl; auto).
    destruct (py_set (cs ++ r :: rs)); [contradiction | simpl; lia]. }
  destruct (required_skills ctx) as [|r rs] eqn:E; [contradiction|].
  destruct cs as [|c cs']; [contradiction|].
  destruct (Nat.eqb_spec (List.length (py_set ((c :: cs') ++ r :: rs))) 0) as [Z|_]; [lia|].
  unfold try_except, Qmin.
  replace (Qle_bool _ 1) with true; [reflexivity|]. symmetry. apply Qle_bool_iff.
  apply Qdiv_le1; [unfold Q_of_nat; change 0 with (inject_Z 0); rewrite <- Zlt_Qlt; lia|].
  apply Q_of_nat_le. exact Hle.
Qed.

Lemma skills_jaccard_witness :
  Skills.calculate sample_candidate (sample_context ["Python"%string] "Senior" 3 None) =
    Q_of_nat (List.length (Skills.fuzzy_match_skills Skills.threshold ["Python"; "SQL"]%string
                             ["Python"%string]))
    / Q_of_nat (List.length (py_set (["Python"; "SQL"]%string ++ ["Python"%string]))).
Proof.
  apply (proj2 (skills_jaccard sample_candidate
                  (sample_context ["Python"%string] "Senior" 3 None) ["Python"; "SQL"]%string)).
  - vm_compute. reflexivity.
  - discriminate.
  - discriminate.
Defined.

(** ** Certification *)

(** [CertificationSimilarityMetric]: a required certification the
    candidate lists verbatim always matches; when both lists are
    non-empty, [calculate] is the number of matched requirements over the
    number of requirements (the [min(..., 1.0)] never takes effect), so it
    is 1.0 when the candidate lists every requirement verbatim. *)
Theorem certification_fraction (candidate : pydict) (ctx : JobContext) (cands : list string) :
  (forall r, In r cands -> Certification.find_matching_certification Certification.threshold r cands = true) /\
  (Certification.extract_candidate_certifications candidate = Ok cands -> cands <> [] ->
   required_certifications ctx <> [] ->
   Certification.calculate candidate ctx =
     Q_of_nat (List.length (List.filter
                 (fun r => Certification.find_matching_certification Certification.threshold r cands)
                 (required_certifications ctx)))
     / Q_of_nat (List.length (required_certifications ctx)) /\
   ((forall r, In r (required_certifications ctx) -> In r cands) ->
    Certification.calculate candidate ctx == 1)).
Proof.
  assert (Hverb : forall r, In r cands ->
            Certification.find_matching_certification Certification.threshold r cands = true).
  { intros r Hr. unfold Certification.find_matching_certification.
    destruct (in_dec string_dec r cands); [reflexivity | contradiction]. }
  split; [exact Hverb|]. intros Hx Hc Hreq.
  assert (Hcalc : Certification.calculate candidate ctx =
     Q_of_nat (List.length (List.filter
                 (fun r => Certification.find_matching_certification Certification.threshold r cands)
                 (required_certifications ctx)))
     / Q_of_nat (List.length (required_certifications ctx))).
  { unfold Certification.calculate. rewrite Hx. simpl.
    destruct (required_certifications ctx) as [|r rs] eqn:E; [contradiction|].
    destruct cands as [|c cs]; [contradiction|]. unfold try_except.
    rewrite Nat.max_l by (simpl; lia).
    unfold Qmin. replace (Qle_bool _ 1) with true; [reflexivity|].
    symmetry. apply Qle_bool_iff. apply Qdiv_le1.
    - unfold Q_of_nat. change 0 with (inject_Z 0). rewrite <- Zlt_Qlt. simpl. lia.
    - apply Q_of_nat_le, filter_length_le'. }
  split; [exact Hcalc|]. intros Hall. rewrite Hcalc.
  rewrite (List.forallb_filter_id _ (required_certifications ctx)).
  - apply Qmult_inv_r. unfold Q_of_nat. change 0 with (inject_Z 0). rewrite inject_Z_injective.
    destruct (required_certifications ctx); [contradiction | simpl; lia].
  - apply forallb_forall. intros r Hr. apply Hverb, Hall, Hr.
Qed.

Lemma certification_fraction_witness :
  Certification.calculate polyglot_candidate cert_lang_context == 1.
Proof.
  apply (proj2 (proj2 (certification_fraction polyglot_candidate cert_lang_context
                         ["aws certified developer"; "pmp"]%string)
                  ltac:(vm_compute; reflexivity) ltac:(discriminate) ltac:(discriminate))).
  intros r Hr. simpl in Hr. simpl. tauto.
Defined.

(** ** Language *)

Lemma in01_mult (x y : Q) : in01 x -> in01 y -> in01 (x * y).
Proof.
  intros [Hx0 Hx1] [Hy0 Hy1]. split.
  - apply Qmult_le_0_compat; assumption.
  - apply (Qle_trans _ (1 * y)); [apply Qmult_le_compat_r; assumption | lra].
Qed.

Lemma proficiency_level_pos (l : string) : (1 <= Language.proficiency_level l)%Z.
Proof. unfold Language.proficiency_level. repeat destruct (String.eqb _ _); lia. Qed.

Lemma single_language_match_fold (rn rl : string) (cands : list (string * string)) :
  Language.single_language_match (rn, rl) cands = List.fold_left (language_step rn rl) cands 0.
Proof. reflexivity. Qed.

Lemma language_step_ge (rn rl : string) (best : Q) (cl : string * string) :
  best <= language_step rn rl best cl.
Proof.
  destruct cl as [cn cp]. unfold language_step.
  destruct (Qle_bool 0.8 _); [apply Qmax_ge_l | apply Qle_refl].
Qed.

Lemma language_step_in01 (rn rl : string) (best : Q) (cl : string * string) :
  in01 best -> in01 (language_step rn rl best cl).
Proof.
  intros Hb. destruct cl as [cn cp]. unfold language_step.
  destruct (Qle_bool 0.8 _); [|exact Hb].
  apply in01_Qmax; [exact Hb|]. apply in01_mult.
  - split; [apply ratio_nonneg | apply ratio_le1].
  - pose proof (proficiency_level_pos cp). pose proof (proficiency_level_pos rl).
    destruct (Language.proficiency_level rl <=? Language.proficiency_level cp)%Z eqn:E;
      [in01_lit|]. apply Z.leb_gt in E. split.
    + apply Qdiv_nonneg; unfold Q_of_Z; change 0 with (inject_Z 0); rewrite <- Zle_Qle; lia.
    + apply Z_frac_le1; lia.
Qed.

Lemma fold_language_step_ge (rn rl : string) (cands : list (string * string)) (best : Q) :
  best <= List.fold_left (language_step rn rl) cands best.
Proof.
  revert best. induction cands as [|cl cands IH]; intros best; simpl; [apply Qle_refl|].
  apply (Qle_trans _ (language_step rn rl best cl)); [apply language_step_ge | apply IH].
Qed.

(** [LanguageSimilarityMetric._calculate_single_language_match]: the
    score for one required language lies in [0, 1]; it is 0 when no
    candidate language name reaches a [SequenceMatcher] ratio of 0.8;
    and a candidate language whose name reaches 0.8, at or above the
    required level, makes it at least that name ratio. *)
Theorem single_language_match_spec (rn rl : string) (cands : list (string * string)) :
  in01 (Language.single_language_match (rn, rl) cands) /\
  ((forall cn cp, In (cn, cp) cands -> Difflib.ratio rn cn < 0.8) ->
   Language.single_language_match (rn, rl) cands = 0) /\
  (forall cn cp, In (cn, cp) cands -> 0.8 <= Difflib.ratio rn cn ->
   (Language.proficiency_level rl <= Language.proficiency_level cp)%Z ->
   Difflib.ratio rn cn <= Language.single_language_match (rn, rl) cands).
Proof.
  rewrite single_language_match_fold. split; [|split].
  - apply fold_left_inv; [in01_lit|]. intros best cl Hb. apply language_step_in01, Hb.
  - intros Hall. cut (forall best, List.fold_left (language_step rn rl) cands best = best);
      [intros Hf; apply Hf|].
    induction cands as [|[cn cp] cands IH]; intros best; cbn [List.fold_left]; [reflexivity|].
    assert (Hlt : Difflib.ratio rn cn < 0.8) by (apply (Hall cn cp); left; reflexivity).
    assert (Hs : language_step rn rl best (cn, cp) = best).
    { unfold language_step. replace (Qle_bool 0.8 (Difflib.ratio rn cn)) with false; [reflexivity|].
      symmetry. apply not_true_iff_false. intros Hle. apply Qle_bool_iff in Hle. lra. }
    rewrite Hs. apply IH. intros cn' cp' Hin. apply (Hall cn' cp'). right. exact Hin.
  - intros cn cp Hin Hr Hlvl.
    cut (forall best, Difflib.ratio rn cn <= List.fold_left (language_step rn rl) cands best);
      [intros Hf; apply Hf|].
    induction cands as [|cl cands IH]; intros best; [destruct Hin|].
    destruct Hin as [->|Hin]; cbn [List.fold_left]; [|apply IH, Hin].
    apply (Qle_trans _ (language_step rn rl best (cn, cp))); [|apply fold_language_step_ge].
    unfold language_step. apply Qle_bool_iff in Hr. rewrite Hr.
    apply Z.leb_le in Hlvl. rewrite Hlvl.
    apply (Qle_trans _ (Difflib.ratio rn cn * 1)); [lra | apply Qmax_ge_r].
Qed.

Lemma single_language_match_spec_witness :
  Language.single_language_match ("french", "basic")%string [("english", "fluent")]%string = 0 /\
  Difflib.ratio "english"%string "english"%string <=
    Language.single_language_match ("english", "advanced")%string [("english", "fluent")]%string.
Proof.
  split.
  - apply (proj1 (proj2 (single_language_match_spec "french"%string "basic"%string [("english", "fluent")]%string))).
    intros cn cp [E|[]]. injection E as <- <-. vm_compute. reflexivity.
  - apply (proj2 (proj2 (single_language_match_spec "english"%string "advanced"%string
                          [("english", "fluent")]%string)) "english"%string "fluent"%string).
    + left. reflexivity.
    + vm_compute. discriminate.
    + vm_compute. discriminate.
Defined.

Lemma language_total_le (req cands : list (string * string)) (acc : Q) :
  List.fold_left (fun acc r => acc + Language.single_language_match r cands) req acc
  <= acc + Q_of_nat (List.length req).
Proof.
  revert acc. induction req as [|[rn rl] req IH]; intros acc; cbn [List.fold_left List.length].
  - change (Q_of_nat 0) with 0. lra.
  - pose proof (proj2 (proj1 (single_language_match_spec rn rl cands))).
    rewrite Q_of_nat_S. specialize (IH (acc + Language.single_language_match (rn, rl) cands)).
    lra.
Qed.

(** [LanguageSimilarityMetric.calculate]: when the job requires languages
    and the candidate lists some, the score is the mean of the
    per-requirement scores (the [min(..., 1.0)] never takes effect). *)
Theorem language_mean (candidate : pydict) (ctx : JobContext) (cands : list (string * string)) :
  Language.extract_candidate_languages candidate = Ok cands -> cands <> [] ->
  required_languages ctx <> [] ->
  Language.calculate candidate ctx =
    List.fold_left (fun acc r => acc + Language.single_language_match r cands)
      (required_languages ctx) 0
    / Q_of_nat (List.length (required_languages ctx)).
Proof.
  intros Hx Hc Hreq. unfold Language.calculate. rewrite Hx. simpl.
  pose proof (language_total_le (required_languages ctx) cands 0) as Hle.
  destruct (required_languages ctx) as [|r rs] eqn:E; [contradiction|].
  destruct cands as [|c cs]; [contradiction|]. unfold try_except.
  rewrite Nat.max_l by (simpl; lia).
  unfold Qmin. replace (Qle_bool _ 1) with true; [reflexivity|].
  symmetry. apply Qle_bool_iff. apply Qdiv_le1.
  - unfold Q_of_nat. change 0 with (inject_Z 0). rewrite <- Zlt_Qlt. simpl. lia.
  - lra.
Qed.

Lemma language_mean_witness :
  Language.calculate polyglot_candidate cert_lang_context =
    List.fold_left (fun acc r => acc + Language.single_language_match r
                                   [("english", "fluent"); ("german", "basic")]%string)
      [("english", "advanced"); ("german", "intermediate")]%string 0
    / Q_of_nat 2.
Proof.
  apply (language_mean polyglot_candidate cert_lang_context
           [("english", "fluent"); ("german", "basic")]%string).
  - vm_compute. reflexivity.
  - discriminate.
  - discriminate.
Defined.

(** ** Seniority: what the score depends on *)



(** ** Experience: candidates without scorable positions *)

Lemma sum_positions_no_dicts `{EmbeddingModel} (items : list pyval) (acc : Q) (ctx : JobContext) :
  count_dicts items = 0%nat -> Experience.sum_positions items acc ctx = (Ok acc, ctx).
Proof.
  revert acc. induction items as [|it items IH]; intros acc Hc; [reflexivity|].
  destruct it; simpl in Hc |- *; try (apply IH; exact Hc). discriminate.
Qed.

(** [ExperienceSimilarityMetric.calculate] for a candidate whose year
    count is the number [y]: without experience (missing, [None] or
    empty) the relevance part is the constant 0.3; with a non-empty
    experience value holding no dict (say a string, iterated by
    character) it is 0. In both cases the job context is left as it was
    (no index is built). *)
Theorem experience_without_positions `{EmbeddingModel} (candidate : pydict)
    (ctx : JobContext) (y : Z) :
  py_num (years_of_experience candidate) = Ok y ->
  (truthy (get_list candidate "experience") = false ->
     Experience.calculate candidate ctx =
       (Ok (Experience.years_score y (min_years_experience ctx) (max_years_experience ctx) * 0.6
            + 0.3 * 0.4), ctx)) /\
  (forall n items,
     truthy (get_list candidate "experience") = true ->
     py_len (get_list candidate "experience") = Ok n ->
     py_iter (get_list candidate "experience") = Ok items ->
     count_dicts items = 0%nat ->
     exists v, Experience.calculate candidate ctx = (Ok v, ctx) /\
       v == Experience.years_score y (min_years_experience ctx) (max_years_experience ctx) * 0.6).
Proof.
  intros Hy. unfold Experience.calculate, se_bind, se_get, se_lift. rewrite Hy.
  unfold Experience.experience_relevance. split.
  - intros Hf. rewrite Hf. reflexivity.
  - intros n items Ht Hl Hi Hc. rewrite Ht.
    unfold se_bind, se_lift. rewrite Hl, Hi. cbv beta iota delta [negb].
    rewrite (sum_positions_no_dicts items 0 ctx Hc).
    eexists. split; [reflexivity|].
    unfold Qdiv. rewrite Qmult_0_l. ring.
Qed.

Lemma experience_without_positions_witness :
  exists v, @Experience.calculate exact_model
      [("years_of_experience", PInt 3); ("experience", PStr "ten years")]%string
      (sample_context [] "Senior" 2 None) = (Ok v, sample_context [] "Senior" 2 None) /\
    v == Experience.years_score 3 2 None * 0.6.
Proof.
  refine (proj2 (@experience_without_positions exact_model _ _ 3%Z _) 9%nat _ _ _ _ _);
    vm_compute; reflexivity.
Defined.

(** ** Engine: batches, single calls and the cached job ids *)

Lemma preprocess_job_cached (db : Database) (jid : Z) (st st' : Engine.engine) (o : nat) :
  Engine.preprocess_job db jid st = (Ok o, st') -> Engine.job_context_cache st' !! jid = Some o.
Proof.
  unfold Engine.preprocess_job.
  destruct (Engine.job_context_cache st !! jid) as [o'|] eqn:Hc.
  { intros E. injection E as <- <-. exact Hc. }
  destruct (get_job db jid) as [j|]; [|discriminate].
  destruct (candidate_missing (Some j)); [discriminate|].
  destruct (build_job_context jid j) as [c|e]; [|discriminate].
  intros E. injection E as <- <-. simpl. apply lookup_insert_eq.
Qed.

Lemma preprocess_job_raise (db : Database) (jid : Z) (st st' : Engine.engine) (e : exc) :
  Engine.preprocess_job db jid st = (Raise e, st') -> st' = st.
Proof.
  unfold Engine.preprocess_job.
  destruct (Engine.job_context_cache st !! jid) as [o'|]; [discriminate|].
  destruct (get_job db jid) as [j|]; [|intros E; injection E as _ <-; reflexivity].
  destruct (candidate_missing (Some j)); [intros E; injection E as _ <-; reflexivity|].
  destruct (build_job_context jid j) as [c|e']; [discriminate|].
  intros E. injection E as _ <-. reflexivity.
Qed.

Lemma score_all_length `{EmbeddingModel} (db : Database) (o : nat) (cids : list Z)
    (w : option weight_map) (st st' : Engine.engine) (ss : list SimilarityScore) :
  Engine.score_all db o cids w st = (Ok ss, st') -> length ss = length cids.
Proof.
  revert st st' ss. induction cids as [|cid rest IH]; intros st st' ss E.
  - injection E as <- _. reflexivity.
  - simpl in E. unfold se_bind, se_ret in E.
    destruct (Engine.with_object o (calculate_similarity_with_context db cid w) st)
      as [[s|e] st1]; [|discriminate].
    destruct (Engine.score_all db o rest w st1) as [[l|e] st2] eqn:E2; [|discriminate].
    injection E as <- _. simpl. f_equal. exact (IH _ _ _ E2).
Qed.

Lemma batch_length `{EmbeddingModel} (db : Database) (cids : list Z) (jid : Z)
    (w : option weight_map) (st st' : Engine.engine) (ss : list SimilarityScore) :
  Engine.calculate_similarity_batch db cids jid w st = (Ok ss, st') -> length ss = length cids.
Proof.
  unfold Engine.calculate_similarity_batch, se_bind.
  destruct (Engine.preprocess_job db jid st) as [[o|e] st1]; [|discriminate].
  apply score_all_length.
Qed.

(** [calculate_similarity_batch] is [calculate_similarity] called on each
    id in turn, stopping at the first exception: the job's context is
    looked up (or built) once, and the later calls find it in the cache.
    A batch with no ids only preprocesses the job; a successful batch has
    one score per id. *)
Theorem batch_is_sequence_of_singles `{EmbeddingModel} (db : Database) (jid : Z)
    (w : option weight_map) :
  (forall st, Engine.calculate_similarity_batch db [] jid w st =
     match Engine.preprocess_job db jid st with
     | (Ok _, st') => (Ok [], st')
     | (Raise e, st') => (Raise e, st')
     end) /\
  (forall cid cids st, Engine.calculate_similarity_batch db (cid :: cids) jid w st =
     match Engine.calculate_similarity db cid jid w st with
     | (Ok s, st1) =>
         match Engine.calculate_similarity_batch db cids jid w st1 with
         | (Ok ss, st2) => (Ok (s :: ss), st2)
         | (Raise e, st2) => (Raise e, st2)
         end
     | (Raise e, st1) => (Raise e, st1)
     end) /\
  (forall cids st ss st', Engine.calculate_similarity_batch db cids jid w st = (Ok ss, st') ->
     length ss = length cids).
Proof.
  split; [|split].
  - intros st. unfold Engine.calculate_similarity_batch, se_bind.
    destruct (Engine.preprocess_job db jid st) as [[o|e] st1]; reflexivity.
  - intros cid cids st. unfold Engine.calculate_similarity_batch, Engine.calculate_similarity.
    cbn [Engine.score_all]. unfold se_bind, se_ret.
    destruct (Engine.preprocess_job db jid st) as [[o|e] st1] eqn:Hp; [|reflexivity].
    pose proof (with_object_frame o (calculate_similarity_with_context db cid w) st1) as [F _].
    destruct (Engine.with_object o (calculate_similarity_with_context db cid w) st1)
      as [[s|e] st2]; [|reflexivity].
    simpl in F. rewrite (preprocess_job_hit db jid o st2)
      by (rewrite F; exact (preprocess_job_cached db jid st st1 o Hp)).
    destruct (Engine.score_all db o cids w st2) as [[ss|e] st3]; reflexivity.
  - intros cids st ss st'. apply batch_length.
Qed.

Lemma batch_is_sequence_of_singles_witness :
  length (match fst (@Engine.calculate_similarity_batch exact_model sample_db [7; 8]%Z 1 None
                       Engine.empty_engine) with Ok l => l | Raise _ => [] end) = 2%nat.
Proof.
  refine (proj2 (proj2 (@batch_is_sequence_of_singles exact_model sample_db 1 None))
            [7; 8]%Z Engine.empty_engine _
            (snd (@Engine.calculate_similarity_batch exact_model sample_db [7; 8]%Z 1 None
                    Engine.empty_engine)) _).
  vm_compute. reflexivity.
Defined.

(** [get_cached_job_ids]: a [preprocess_job] that returns adds exactly
    its job id (and leaves the returned object under it); one that raises
    changes nothing; scoring a batch or a single candidate changes the
    cached ids only through its [preprocess_job]. *)
Theorem cached_job_ids_evolution `{EmbeddingModel} (db : Database) (jid : Z)
    (st : Engine.engine) :
  (forall o st', Engine.preprocess_job db jid st = (Ok o, st') ->
     Engine.get_cached_job_ids st' = {[jid]} ∪ Engine.get_cached_job_ids st /\
     Engine.job_context_cache st' !! jid = Some o) /\
  (forall e st', Engine.preprocess_job db jid st = (Raise e, st') -> st' = st) /\
  (forall cids w,
     Engine.get_cached_job_ids (snd (Engine.calculate_similarity_batch db cids jid w st))
     = Engine.get_cached_job_ids (snd (Engine.preprocess_job db jid st))) /\
  (forall cid w,
     Engine.get_cached_job_ids (snd (Engine.calculate_similarity db cid jid w st))
     = Engine.get_cached_job_ids (snd (Engine.preprocess_job db jid st))).
Proof.
  split; [|split; [|split]].
  - intros o st' Hp. split; [|exact (preprocess_job_cached db jid st st' o Hp)].
    unfold Engine.get_cached_job_ids. revert Hp. unfold Engine.preprocess_job.
    destruct (Engine.job_context_cache st !! jid) as [o'|] eqn:Hc.
    { intros E. injection E as <- <-. apply leibniz_equiv.
      pose proof (elem_of_dom_2 (Engine.job_context_cache st) jid o' Hc). set_solver. }
    destruct (get_job db jid) as [j|]; [|discriminate].
    destruct (candidate_missing (Some j)); [discriminate|].
    destruct (build_job_context jid j) as [c|e]; [|discriminate].
    intros E. injection E as <- <-. simpl. apply dom_insert_L.
  - intros e st'. apply preprocess_job_raise.
  - intros cids w. unfold Engine.calculate_similarity_batch. rewrite se_bind_snd.
    destruct (Engine.preprocess_job db jid st) as [[o|e] st1]; [|reflexivity].
    unfold Engine.get_cached_job_ids. simpl.
    rewrite (proj1 (score_all_frame db o cids w st1)). reflexivity.
  - intros cid w. unfold Engine.calculate_similarity. rewrite se_bind_snd.
    destruct (Engine.preprocess_job db jid st) as [[o|e] st1]; [|reflexivity].
    unfold Engine.get_cached_job_ids. simpl.
    rewrite (proj1 (with_object_frame o (calculate_similarity_with_context db cid w) st1)).
    reflexivity.
Qed.

Lemma cached_job_ids_evolution_witness :
  Engine.get_cached_job_ids (snd (Engine.preprocess_job sample_db 1 Engine.empty_engine))
  = {[1%Z]} ∪ Engine.get_cached_job_ids Engine.empty_engine.
Proof.
  exact (proj1 (proj1 (@cached_job_ids_evolution exact_model sample_db 1 Engine.empty_engine)
                 0%nat _ eq_refl)).
Defined.

(** ** The matching endpoint *)

Lemma query_ok_iff (min_score : Q) (limit : Z) :
  (Qle_bool 0 min_score && Qle_bool min_score 1 && (1 <=? limit)%Z && (limit <=? 500)%Z) = true
  <-> ((0 <= min_score /\ min_score <= 1) /\ (1 <= limit <= 500)%Z).
Proof.
  rewrite !andb_true_iff, !Qle_bool_iff, Z.leb_le, Z.leb_le. tauto.
Qed.

Lemma mapM_res_ok {A B} (f : A -> result B) (xs : list A) (ys : list B) :
  mapM_res f xs = Ok ys ->
  length ys = length xs /\
  (forall j x, nth_error xs j = Some x -> exists y, f x = Ok y).
Proof.
  revert ys. induction xs as [|x xs IH]; intros ys E.
  - injection E as <-. split; [reflexivity|]. intros [|j] x' Hx; discriminate.
  - simpl in E. destruct (f x) as [y|e] eqn:Ef; [|discriminate].
    simpl in E. destruct (mapM_res f xs) as [ys'|e] eqn:Er; [|discriminate].
    simpl in E. injection E as <-. destruct (IH ys' eq_refl) as [Hl Hn].
    split; [simpl; congruence|].
    intros [|j] x' Hx; simpl in Hx; [injection Hx as <-; eauto | exact (Hn j x' Hx)].
Qed.

Lemma mapM_res_raise {A B} (f : A -> result B) (xs : list A) (x : A) (e : exc) :
  In x xs -> f x = Raise e -> exists e', mapM_res f xs = Raise e'.
Proof.
  induction xs as [|x0 xs IH]; intros Hin Hf; [contradiction|].
  simpl. destruct (f x0) as [y|e0] eqn:E0; simpl; [|eauto].
  destruct Hin as [<-|Hin]; [congruence|].
  destruct (IH Hin Hf) as [e' ->]. eauto.
Qed.

Lemma insert_desc_perm (m : MatchResponse) (ms : list MatchResponse) :
  Permutation (insert_desc m ms) (m :: ms).
Proof.
  induction ms as [|m' ms IH]; simpl; [reflexivity|].
  destruct (Qle_bool (match_key m') (match_key m)); [reflexivity|].
  rewrite IH. apply perm_swap.
Qed.

Lemma sort_desc_perm (ms : list MatchResponse) : Permutation (sort_desc ms) ms.
Proof.
  induction ms as [|m ms IH]; simpl; [reflexivity|].
  rewrite insert_desc_perm, IH. reflexivity.
Qed.

Lemma insert_desc_hd (x m : MatchResponse) (ms : list MatchResponse) :
  HdRel (fun a b => match_key b <= match_key a) x ms ->
  match_key m <= match_key x ->
  HdRel (fun a b => match_key b <= match_key a) x (insert_desc m ms).
Proof.
  intros Hd Hm. destruct ms as [|m' ms]; simpl; [constructor; exact Hm|].
  destruct (Qle_bool (match_key m') (match_key m)); constructor; [exact Hm|].
  inversion Hd; assumption.
Qed.

Lemma insert_desc_sorted (m : MatchResponse) (ms : list MatchResponse) :
  Sorted (fun a b => match_key b <= match_key a) ms ->
  Sorted (fun a b => match_key b <= match_key a) (insert_desc m ms).
Proof.
  induction ms as [|m' ms IH]; intros Hs; simpl; [repeat constructor|].
  destruct (Qle_bool (match_key m') (match_key m)) eqn:E.
  - constructor; [exact Hs|]. constructor. apply Qle_bool_iff. exact E.
  - apply Sorted_inv in Hs as [Hs Hd]. constructor; [exact (IH Hs)|].
    apply insert_desc_hd; [exact Hd|]. apply Qlt_le_weak, Qle_bool_false. exact E.
Qed.

Lemma sort_desc_sorted (ms : list MatchResponse) :
  StronglySorted (fun a b => match_key b <= match_key a) (sort_desc ms).
Proof.
  apply Sorted_StronglySorted.
  - intros a b c H1 H2. eapply Qle_trans; eassumption.
  - induction ms as [|m ms IH]; simpl; [constructor|]. apply insert_desc_sorted. exact IH.
Qed.

Lemma StronglySorted_app_inv {A} (R : A -> A -> Prop) (l1 l2 : list A) :
  StronglySorted R (l1 ++ l2) ->
  StronglySorted R l1 /\ (forall a b, In a l1 -> In b l2 -> R a b).
Proof.
  induction l1 as [|x l1 IH]; intros Hs; simpl in Hs.
  - split; [constructor | intros a b []].
  - apply StronglySorted_inv in Hs as [Hs Hf]. destruct (IH Hs) as [H1 H2].
    rewrite List.Forall_forall in Hf. split.
    + constructor; [exact H1|]. apply List.Forall_forall. intros y Hy. apply Hf, in_or_app. auto.
    + intros a b [<-|Ha] Hb; [apply Hf, in_or_app; auto | exact (H2 a b Ha Hb)].
Qed.

Lemma collect_matches_spec (all : list pydict) (min_score : Q) (i : nat)
    (rs : list SimilarityScore) :
  (forall k r, nth_error rs k = Some r ->
     exists c z, nth_error all (i + k) = Some c /\ candidate_row_id c = Ok z) ->
  exists matched, collect_matches all min_score i rs = HOk matched /\
    length matched = length (List.filter (fun r => Qle_bool min_score (overall_score r)) rs) /\
    (forall m, In m matched <->
       exists k c r z, nth_error all (i + k) = Some c /\ nth_error rs k = Some r /\
         candidate_row_id c = Ok z /\ min_score <= overall_score r /\
         m = mkMatch z (dget c "full_name" PNone) r).
Proof.
  revert i. induction rs as [|r rs IH]; intros i Hall.
  - exists []. split; [reflexivity|]. split; [reflexivity|].
    intros m. split; [intros []|]. intros (k & c & r & z & _ & Hk & _). destruct k; discriminate.
  - assert (Hrest : forall k r', nth_error rs k = Some r' ->
              exists c z, nth_error all (S i + k) = Some c /\ candidate_row_id c = Ok z).
    { intros k r' Hk. replace (S i + k)%nat with (i + S k)%nat by lia. exact (Hall (S k) r' Hk). }
    destruct (IH (S i) Hrest) as (matched & Hcoll & Hlen & Hin).
    simpl. destruct (Qle_bool min_score (overall_score r)) eqn:Eq.
    + destruct (Hall 0%nat r eq_refl) as (c & z & Hc & Hz). rewrite Nat.add_0_r in Hc.
      rewrite Hc, Hz, Hcoll. eexists. split; [reflexivity|]. split; [simpl; congruence|].
      intros m. split.
      * intros [<-|Hm].
        -- exists 0%nat, c, r, z. rewrite Nat.add_0_r.
           repeat split; auto. apply Qle_bool_iff. exact Eq.
        -- apply Hin in Hm as (k & c' & r' & z' & H1 & H2 & H3 & H4 & H5).
           exists (S k), c', r', z'. replace (i + S k)%nat with (S i + k)%nat by lia. auto.
      * intros (k & c' & r' & z' & H1 & H2 & H3 & H4 & H5). destruct k as [|k].
        -- simpl in H2. injection H2 as <-. rewrite Nat.add_0_r, Hc in H1.
           injection H1 as <-. rewrite Hz in H3. injection H3 as <-. left. auto.
        -- right. apply Hin. exists k, c', r', z'.
           replace (S i + k)%nat with (i + S k)%nat by lia. auto.
    + rewrite Hcoll. eexists. split; [reflexivity|]. split; [exact Hlen|].
      intros m. rewrite Hin. split.
      * intros (k & c' & r' & z' & H1 & H2 & H3 & H4 & H5). exists (S k), c', r', z'.
        replace (i + S k)%nat with (S i + k)%nat by lia. auto.
      * intros (k & c' & r' & z' & H1 & H2 & H3 & H4 & H5). destruct k as [|k].
        -- simpl in H2. injection H2 as <-. apply Qle_bool_iff in H4. congruence.
        -- exists k, c', r', z'. replace (S i + k)%nat with (i + S k)%nat by lia. auto.
Qed.

(** [get_matching_candidates_for_job]: out-of-range query parameters are
    refused (422) and an unknown job is answered 404, in both cases before
    the engine is used. With a known job, no candidate rows give the empty
    list without using the engine; a row without an [id] gives 500 before
    any scoring; an exception of the engine (e.g. [AttributeError] on a
    [null] position title) gives 500, the engine keeping the state it
    reached (the job's context stays cached). *)
Theorem matching_candidates_errors `{EmbeddingModel} (db : Database)
    (all_candidates : list pydict) (jid : Z) (min_score : Q) (limit : Z)
    (st : Engine.engine) :
  (~ ((0 <= min_score /\ min_score <= 1) /\ (1 <= limit <= 500)%Z) ->
     get_matching_candidates_for_job db all_candidates jid min_score limit st = (HError 422, st)) /\
  ((0 <= min_score /\ min_score <= 1) -> (1 <= limit <= 500)%Z ->
     (candidate_missing (get_job db jid) = true ->
        get_matching_candidates_for_job db all_candidates jid min_score limit st
        = (HError 404, st)) /\
     (candidate_missing (get_job db jid) = false ->
        (all_candidates = [] ->
           get_matching_candidates_for_job db all_candidates jid min_score limit st
           = (HOk [], st)) /\
        (forall c, In c all_candidates -> dict_lookup c "id" = None ->
           get_matching_candidates_for_job db all_candidates jid min_score limit st
           = (HError 500, st)) /\
        (forall cids e st', mapM_res candidate_row_id all_candidates = Ok cids ->
           all_candidates <> [] ->
           Engine.calculate_similarity_batch db cids jid None st = (Raise e, st') ->
           get_matching_candidates_for_job db all_candidates jid min_score limit st
           = (HError 500, st')))).
Proof.
  unfold get_matching_candidates_for_job. split.
  - intros Hn. destruct (Qle_bool 0 min_score && Qle_bool min_score 1 && (1 <=? limit)%Z
                          && (limit <=? 500)%Z) eqn:E; [|reflexivity].
    exfalso. apply Hn, query_ok_iff, E.
  - intros Hq Hl. rewrite (proj2 (query_ok_iff min_score limit) (conj Hq Hl)).
    cbv beta iota delta [negb]. split; [intros Hj; rewrite Hj; reflexivity|].
    intros Hj. rewrite Hj. split; [|split].
    + intros ->. reflexivity.
    + intros c Hin Hid.
      destruct (mapM_res_raise candidate_row_id all_candidates c KeyError Hin)
        as [e' He]; [unfold candidate_row_id; rewrite Hid; reflexivity|].
      destruct all_candidates as [|c0 rest]; [contradiction|]. rewrite He. reflexivity.
    + intros cids e st' Hm Hne Hb. destruct all_candidates as [|c0 rest]; [congruence|].
      rewrite Hm, Hb. reflexivity.
Qed.

Lemma matching_candidates_errors_witness :
  @get_matching_candidates_for_job exact_model empty_db [] 1 0.5 10 Engine.empty_engine
  = (HError 404, Engine.empty_engine).
Proof.
  refine (proj1 (proj2 (@matching_candidates_errors exact_model empty_db [] 1 0.5 10
                          Engine.empty_engine) _ _) _).
  - split; [discriminate | discriminate].
  - lia.
  - reflexivity.
Defined.

(** [get_matching_candidates_for_job] when the query is valid, the job
    exists, every candidate row has an integer [id] and the batch returns
    the scores [results]: the answer is a list, never an error. It is
    made of the matches, one [MatchResponse] per candidate [i] whose
    score [results[i]] reaches [min_score], carrying that candidate's
    [id] and [full_name]; it is sorted by [overall_score], highest first,
    holds [min(limit, #matches)] of them, and no match left out scores
    higher than one returned. *)
Theorem matching_candidates_ranking `{EmbeddingModel} (db : Database)
    (all_candidates : list pydict) (jid : Z) (min_score : Q) (limit : Z)
    (st : Engine.engine) (cids : list Z) (results : list SimilarityScore)
    (st' : Engine.engine) :
  (0 <= min_score /\ min_score <= 1) -> (1 <= limit <= 500)%Z ->
  candidate_missing (get_job db jid) = false ->
  all_candidates <> [] ->
  mapM_res candidate_row_id all_candidates = Ok cids ->
  Engine.calculate_similarity_batch db cids jid None st = (Ok results, st') ->
  exists out rest matched,
    get_matching_candidates_for_job db all_candidates jid min_score limit st = (HOk out, st') /\
    Permutation (out ++ rest) matched /\
    Sorted (fun a b => match_key b <= match_key a) out /\
    (forall a b, In a out -> In b rest -> match_key b <= match_key a) /\
    length out = Nat.min (Z.to_nat limit) (length matched) /\
    length matched
    = length (List.filter (fun r => Qle_bool min_score (overall_score r)) results) /\
    (forall m, In m matched <->
       exists i c r z, nth_error all_candidates i = Some c /\ nth_error results i = Some r /\
         candidate_row_id c = Ok z /\ min_score <= overall_score r /\
         m = mkMatch z (dget c "full_name" PNone) r).
Proof.
  intros Hq Hl Hj Hne Hm Hb.
  destruct (mapM_res_ok candidate_row_id all_candidates cids Hm) as [Hlen Hids].
  pose proof (batch_length db cids jid None st st' results Hb) as Hrl.
  destruct (collect_matches_spec all_candidates min_score 0 results) as (matched & Hc & Hml & Hin).
  { intros k r Hk. simpl.
    assert (Hlt : (k < length all_candidates)%nat).
    { rewrite <- Hlen, <- Hrl. apply nth_error_Some. congruence. }
    apply nth_error_Some in Hlt.
    destruct (nth_error all_candidates k) as [c|] eqn:Hck; [|contradiction].
    destruct (Hids k c Hck) as [z Hz]. eauto. }
  exists (firstn (Z.to_nat limit) (sort_desc matched)),
         (skipn (Z.to_nat limit) (sort_desc matched)), matched.
  pose proof (sort_desc_sorted matched) as Hs.
  rewrite <- (firstn_skipn (Z.to_nat limit) (sort_desc matched)) in Hs.
  destruct (StronglySorted_app_inv _ _ _ Hs) as [Hs1 Hcross].
  split; [|split; [|split; [|split; [|split]]]].
  - unfold get_matching_candidates_for_job.
    rewrite (proj2 (query_ok_iff min_score limit) (conj Hq Hl)).
    cbv beta iota delta [negb]. rewrite Hj.
    destruct all_candidates as [|c0 rest]; [congruence|].
    rewrite Hm, Hb, Hc. reflexivity.
  - rewrite firstn_skipn. apply sort_desc_perm.
  - apply StronglySorted_Sorted. exact Hs1.
  - exact Hcross.
  - rewrite length_firstn, (Permutation_length (sort_desc_perm matched)). reflexivity.
  - split; [exact Hml | exact Hin].
Qed.

Lemma matching_candidates_ranking_witness :
  exists out rest matched,
    @get_matching_candidates_for_job exact_model sample_db
       [("id", PInt 7) :: sample_candidate; [("id", PInt 8)]]%string 1 0.5 10
       Engine.empty_engine
    = (HOk out, snd (@Engine.calculate_similarity_batch exact_model sample_db [7; 8]%Z 1 None
                       Engine.empty_engine)) /\
    Permutation (out ++ rest) matched /\
    Sorted (fun a b => match_key b <= match_key a) out /\
    (forall a b, In a out -> In b rest -> match_key b <= match_key a) /\
    length out = Nat.min (Z.to_nat 10) (length matched) /\
    length matched
    = length (List.filter (fun r => Qle_bool 0.5 (overall_score r))
                (match fst (@Engine.calculate_similarity_batch exact_model sample_db [7; 8]%Z 1
                              None Engine.empty_engine) with Ok l => l | Raise _ => [] end)) /\
    (forall m, In m matched <->
       exists i c r z,
         nth_error ([("id", PInt 7) :: sample_candidate; [("id", PInt 8)]]%string) i = Some c /\
         nth_error (match fst (@Engine.calculate_similarity_batch exact_model sample_db
                                 [7; 8]%Z 1 None Engine.empty_engine)
                    with Ok l => l | Raise _ => [] end) i = Some r /\
         candidate_row_id c = Ok z /\ 0.5 <= overall_score r /\
         m = mkMatch z (dget c "full_name" PNone) r).
Proof.
  refine (@matching_candidates_ranking exact_model sample_db _ 1 0.5 10 Engine.empty_engine
            [7; 8]%Z _ _ _ _ _ _ _ _).
  - split; discriminate.
  - lia.
  - reflexivity.
  - discriminate.
  - reflexivity.
  - vm_compute. reflexivity.
Defined.

(** ** The semantic metric *)




(** ** [round(x, 4)] *)

Lemma round_half_even_close (y : Q) :
  y - (1 # 2) <= inject_Z (round_half_even y) /\ inject_Z (round_half_even y) <= y + (1 # 2).
Proof.
  unfold round_half_even. cbv zeta.
  pose proof (Qfloor_le y) as Hf. pose proof (Qlt_floor y) as Hf1.
  rewrite inject_Z_plus in Hf1. change (inject_Z 1) with 1 in Hf1.
  unfold Qlt_bool.
  destruct (Qle_bool (1 # 2) (y - inject_Z (Qfloor y))) eqn:E1; simpl negb; cbv iota.
  - apply Qle_bool_iff in E1.
    destruct (Qle_bool (y - inject_Z (Qfloor y)) (1 # 2)) eqn:E2; simpl negb; cbv iota.
    + apply Qle_bool_iff in E2.
      destruct (Z.even (Qfloor y)); [split; lra|].
      rewrite inject_Z_plus. change (inject_Z 1) with 1. split; lra.
    + apply Qle_bool_false in E2.
      rewrite inject_Z_plus. change (inject_Z 1) with 1. split; lra.
  - apply Qle_bool_false in E1. split; lra.
Qed.

Lemma round_half_even_int (q : Q) (k : Z) : q == inject_Z k -> round_half_even q = k.
Proof.
  intros Hq. unfold round_half_even. cbv zeta.
  assert (Hf : Qfloor q = k) by (rewrite Hq; apply Qfloor_Z).
  rewrite Hf. unfold Qlt_bool.
  destruct (Qle_bool (1 # 2) (q - inject_Z k)) eqn:E; [|reflexivity].
  apply Qle_bool_iff in E. lra.
Qed.

(** [round(x, 4)] as the orchestrator applies it to every score: the
    result is within half a unit of the fourth decimal of [x], and
    rounding a rounded score again changes nothing. *)
Theorem round4_close_idempotent (x : Q) :
  x - (1 # 20000) <= round4 x /\ round4 x <= x + (1 # 20000) /\
  round4 (round4 x) = round4 x.
Proof.
  destruct (round_half_even_close (x * 10000)) as [H1 H2].
  unfold round4. set (k := round_half_even (x * 10000)) in *.
  split; [|split].
  - unfold Qdiv. change (/ 10000) with (1 # 10000). lra.
  - unfold Qdiv. change (/ 10000) with (1 # 10000). lra.
  - rewrite (round_half_even_int (inject_Z k / 10000 * 10000) k); [reflexivity|].
    unfold Qdiv. change (/ 10000) with (1 # 10000). ring.
Qed.

(** ** The education metric *)

Lemma fold_res_raise {A B} (f : B -> A -> result B) (xs : list A) (x : A) (acc : B) :
  In x xs -> (forall b, exists e, f b x = Raise e) -> exists e, fold_res f xs acc = Raise e.
Proof.
  revert acc. induction xs as [|x0 xs IH]; intros acc Hin Hf; [contradiction|].
  simpl. destruct Hin as [<-|Hin].
  - destruct (Hf acc) as [e ->]. eauto.
  - destruct (f acc x0) as [b|e]; simpl; [exact (IH b Hin Hf) | eauto].
Qed.

(** [EducationSimilarityMetric.calculate]: 0.8 when the job has no
    education requirement; with requirements, 0.0 for a candidate without
    education, and otherwise the fraction of requirements met (by a
    lower-cased degree or field of study with ratio above 0.7), a number
    in [0, 1]. A single entry whose [degree] is truthy but not a string
    makes [.lower()] raise, and the score is then the fallback 0.0,
    whatever the other entries hold. *)
Theorem education_fraction (candidate : pydict) (ctx : JobContext) :
  (education_requirements ctx = [] -> Education.calculate candidate ctx = 0.8) /\
  (education_requirements ctx <> [] ->
     (truthy (get_list candidate "education") = false -> Education.calculate candidate ctx = 0) /\
     (forall items degrees fields,
        truthy (get_list candidate "education") = true ->
        py_iter (get_list candidate "education") = Ok items ->
        fold_res Education.edu_item items ([], []) = Ok (degrees, fields) ->
        Education.calculate candidate ctx
        = Q_of_nat (length (List.filter (Education.requirement_met degrees fields)
                                        (education_requirements ctx)))
          / Q_of_nat (length (education_requirements ctx)) /\
        in01 (Education.calculate candidate ctx)) /\
     (forall items d,
        truthy (get_list candidate "education") = true ->
        py_iter (get_list candidate "education") = Ok items ->
        In (PDict d) items ->
        truthy (dget d "degree" (PStr "")) = true ->
        (forall s, dget d "degree" (PStr "") <> PStr s) ->
        Education.calculate candidate ctx = 0)).
Proof.
  unfold Education.calculate. split.
  - intros ->. reflexivity.
  - intros Hne. destruct (education_requirements ctx) as [|r rs] eqn:Er; [congruence|].
    split; [|split].
    + intros Hf. rewrite Hf. reflexivity.
    + intros items degrees fields Ht Hi Hfold. rewrite Ht, Hi. simpl negb. cbv iota.
      unfold mbind, result_bind. rewrite Hfold. cbn [try_except fst snd].
      assert (Hmax : Nat.max (length (r :: rs)) 1 = length (r :: rs)) by (simpl; lia).
      split; [rewrite Hmax; reflexivity|].
      apply nat_frac_in01, filter_length_le'.
    + intros items d Ht Hi Hin Hd Hns. rewrite Ht, Hi. simpl negb. cbv iota. unfold mbind, result_bind.
      destruct (fold_res_raise Education.edu_item items (PDict d) ([], []) Hin) as [e He].
      { intros [degs fs]. simpl. rewrite Hd.
        destruct (dget d "degree" (PStr "")) as [| | |s| |] eqn:Edeg; try (eexists; reflexivity).
        exfalso. exact (Hns s eq_refl). }
      rewrite He. reflexivity.
Qed.

Lemma education_fraction_witness :
  Education.calculate
    [("education", PList [PDict [("degree", PInt 3)];
                          PDict [("degree", PStr "MSc"); ("field_of_study", PStr "Physics")]])]%string
    (mkJobContext 1 [] [] "" ["msc"] [] [] 0 None "" "" None)%string = 0.
Proof.
  refine (proj2 (proj2 (proj2 (education_fraction _ _) _)) _ [("degree", PInt 3)]%string
            _ _ _ _ _).
  - discriminate.
  - reflexivity.
  - reflexivity.
  - left. reflexivity.
  - reflexivity.
  - intros s. discriminate.
Defined.
